(** * Dread of Zarovich data migration scripts: a shallow embedding

    The three migration scripts of the repository
    ([scripts/fix-actor-data.py], [scripts/add-actor-items.py] and
    [scripts/refactor-data.py]) are embedded as Rocq functions over a model
    of the JSON documents they transform, and their documented properties
    are stated and settled on that embedding.

    Conventions.
    - A Python [str] is a list of Unicode code points ([str := list N]),
      so that [strip], [\s], [\d] and the bullet and dash characters of the
      narrative notes behave as they do in CPython.
    - A JSON document is a tree ([json]); a Python [dict] is an association
      list in insertion order, which is the order [json.dump] writes, so
      equality of two [json] values is equality of the written bytes.
      Fractional JSON numbers are not part of the model.
    - A Python exception is a [Raise] in the [result] monad; the global
      identifier counter of [add-actor-items.py] is threaded explicitly. *)

From Stdlib Require Import String Ascii List NArith ZArith Bool Lia.
Import ListNotations.

Set Implicit Arguments.

(* ================================================================== *)
(** ** Python strings *)

Definition char := N.
Bind Scope N_scope with char.
Definition str := list char.

Fixpoint str_eqb (a b : str) : bool :=
  match a, b with
  | [], [] => true
  | x :: a', y :: b' => N.eqb x y && str_eqb a' b'
  | _, _ => false
  end.

(** Decoding of the UTF-8 bytes of a source literal into code points. *)
Fixpoint utf8 (bs : list N) : str :=
  match bs with
  | [] => []
  | b0 :: t0 =>
    if (b0 <? 128)%N then b0 :: utf8 t0
    else match t0 with
    | [] => []
    | b1 :: t1 =>
      if (b0 <? 224)%N then ((b0 - 192) * 64 + (b1 - 128))%N :: utf8 t1
      else match t1 with
      | [] => []
      | b2 :: t2 =>
        if (b0 <? 240)%N
        then ((b0 - 224) * 4096 + (b1 - 128) * 64 + (b2 - 128))%N :: utf8 t2
        else match t2 with
        | [] => []
        | b3 :: t3 =>
          ((b0 - 240) * 262144 + (b1 - 128) * 4096
           + (b2 - 128) * 64 + (b3 - 128))%N :: utf8 t3
        end
      end
    end
  end.

(** [u "text"] is the Python string literal ["text"]. *)
Definition u (s : string) : str :=
  utf8 (map N_of_ascii (list_ascii_of_string s)).

Definition c_nl : char := 10%N.
Definition c_lparen : char := 40%N.
Definition c_rparen : char := 41%N.
Definition c_plus : char := 43%N.
Definition c_comma : char := 44%N.
Definition c_minus : char := 45%N.
Definition c_dot : char := 46%N.
Definition c_colon : char := 58%N.
Definition c_underscore : char := 95%N.
Definition c_x : char := 120%N.
Definition c_bullet : char := 8226%N.
Definition c_endash : char := 8211%N.
Definition c_emdash : char := 8212%N.

Definition in_range (lo hi c : char) : bool := ((lo <=? c) && (c <=? hi))%N.

(** [str.isspace] on one code point, which is also what [\s] matches in a
    [str] pattern. *)
Definition isspace (c : char) : bool :=
  (in_range 9 13 c || in_range 28 32 c || (c =? 133) || (c =? 160)
   || (c =? 5760) || in_range 8192 8202 c || (c =? 8232) || (c =? 8233)
   || (c =? 8239) || (c =? 8287) || (c =? 12288))%N.

(** The runs of decimal digits (category Nd) of the Unicode database used
    by CPython 3.11: each run starts at a digit zero and counts upwards. *)
Definition decimal_runs : list (N * N) :=
  [ (48, 57); (1632, 1641); (1776, 1785); (1984, 1993); (2406, 2415);
    (2534, 2543); (2662, 2671); (2790, 2799); (2918, 2927); (3046, 3055);
    (3174, 3183); (3302, 3311); (3430, 3439); (3558, 3567); (3664, 3673);
    (3792, 3801); (3872, 3881); (4160, 4169); (4240, 4249); (6112, 6121);
    (6160, 6169); (6470, 6479); (6608, 6617); (6784, 6793); (6800, 6809);
    (6992, 7001); (7088, 7097); (7232, 7241); (7248, 7257); (42528, 42537);
    (43216, 43225); (43264, 43273); (43472, 43481); (43504, 43513);
    (43600, 43609); (44016, 44025); (65296, 65305); (66720, 66729);
    (68912, 68921); (69734, 69743); (69872, 69881); (69942, 69951);
    (70096, 70105); (70384, 70393); (70736, 70745); (70864, 70873);
    (71248, 71257); (71360, 71369); (71472, 71481); (71904, 71913);
    (72016, 72025); (72784, 72793); (73040, 73049); (73120, 73129);
    (92768, 92777); (92864, 92873); (93008, 93017); (120782, 120831);
    (123200, 123209); (123632, 123641); (125264, 125273);
    (130032, 130041) ]%N.

Fixpoint find_run (runs : list (N * N)) (c : char) : option N :=
  match runs with
  | [] => None
  | (lo, hi) :: rest =>
    if in_range lo hi c then Some ((c - lo) mod 10)%N else find_run rest c
  end.

(** What [\d] matches, and the value [int] gives the digit. *)
Definition isdigit (c : char) : bool :=
  match find_run decimal_runs c with Some _ => true | None => false end.

Definition digit_value (c : char) : Z :=
  match find_run decimal_runs c with Some v => Z.of_N v | None => 0%Z end.

Fixpoint lstrip_by (p : char -> bool) (s : str) : str :=
  match s with
  | c :: s' => if p c then lstrip_by p s' else s
  | [] => []
  end.

Definition rstrip_by (p : char -> bool) (s : str) : str :=
  rev (lstrip_by p (rev s)).

Definition strip_by (p : char -> bool) (s : str) : str :=
  rstrip_by p (lstrip_by p s).

(** [s.strip()], [s.rstrip('.')] and [s.strip('-')]. *)
Definition strip (s : str) : str := strip_by isspace s.
Definition rstrip_dot (s : str) : str := rstrip_by (N.eqb c_dot) s.
Definition strip_dash (s : str) : str := strip_by (N.eqb c_minus) s.

(** [s.split(c)] for a one-character separator: never an empty list. *)
Fixpoint split_on (c : char) (s : str) : list str :=
  match s with
  | [] => [[]]
  | x :: s' =>
    if N.eqb x c then [] :: split_on c s'
    else match split_on c s' with
         | h :: t => (x :: h) :: t
         | [] => [[x]]
         end
  end.

Fixpoint starts_with (pat s : str) : bool :=
  match pat, s with
  | [], _ => true
  | p :: pat', c :: s' => N.eqb p c && starts_with pat' s'
  | _ :: _, [] => false
  end.

(** [pat in s] on strings. *)
Fixpoint contains (pat s : str) : bool :=
  starts_with pat s ||
  match s with
  | [] => false
  | _ :: s' => contains pat s'
  end.

(** The value of a non-empty run of decimal digits, as [int] reads it.
    Integers are unbounded: the cap that recent CPython versions put on
    the number of digits of one conversion (4300 by default) is not
    modelled. *)
Definition digits_value (ds : str) : Z :=
  fold_left (fun acc c => (acc * 10 + digit_value c)%Z) ds 0%Z.

(** [str(n)] for a natural number, and [f"{n:04d}"]. *)
Fixpoint uint_chars (d : Decimal.uint) : str :=
  match d with
  | Decimal.Nil => []
  | Decimal.D0 d' => 48%N :: uint_chars d'
  | Decimal.D1 d' => 49%N :: uint_chars d'
  | Decimal.D2 d' => 50%N :: uint_chars d'
  | Decimal.D3 d' => 51%N :: uint_chars d'
  | Decimal.D4 d' => 52%N :: uint_chars d'
  | Decimal.D5 d' => 53%N :: uint_chars d'
  | Decimal.D6 d' => 54%N :: uint_chars d'
  | Decimal.D7 d' => 55%N :: uint_chars d'
  | Decimal.D8 d' => 56%N :: uint_chars d'
  | Decimal.D9 d' => 57%N :: uint_chars d'
  end.

Definition str_of_N (n : N) : str := uint_chars (N.to_uint n).

Definition str_of_Z (z : Z) : str :=
  match z with
  | Zneg p => c_minus :: str_of_N (Npos p)
  | _ => str_of_N (Z.to_N z)
  end.

Definition pad4 (n : N) : str :=
  let d := str_of_N n in
  repeat 48%N (4 - length d) ++ d.

(* ================================================================== *)
(** ** Regular expressions

    The patterns of the scripts use literals, character classes,
    concatenation, alternation, capturing groups, the anchors [^] and [$],
    and greedy or lazy repetition of a single character class.  [rmatch] is
    the backtracking matcher of Python's [re] on this fragment, written in
    continuation-passing style: alternatives are tried in the order the
    pattern gives them, and the first overall success is the match. *)

Inductive regex : Type :=
| REps : regex
| RChr : (char -> bool) -> regex
| RLit : str -> regex
| RCat : regex -> regex -> regex
| RAlt : regex -> regex -> regex
| RStar : bool -> (char -> bool) -> regex
| RGroup : nat -> regex -> regex
| RBol : regex
| REol : regex.

(** [c+] and [c+?]; [c?] as the greedy choice between [r] and nothing. *)
Definition RPlus (greedy : bool) (p : char -> bool) : regex :=
  RCat (RChr p) (RStar greedy p).
Definition ROpt (r : regex) : regex := RAlt r REps.

Fixpoint RSeq (rs : list regex) : regex :=
  match rs with
  | [] => REps
  | [r] => r
  | r :: rs' => RCat r (RSeq rs')
  end.

Fixpoint RAny (rs : list regex) : regex :=
  match rs with
  | [] => REps
  | [r] => r
  | r :: rs' => RAlt r (RAny rs')
  end.

(** Character classes. *)
Definition cls_any : char -> bool := fun _ => true.
Definition cls_dot : char -> bool := fun c => negb (N.eqb c c_nl).
Definition cls_upper : char -> bool := in_range 65 90.

Definition caps := list (nat * str).

Fixpoint cap_get (n : nat) (c : caps) : str :=
  match c with
  | [] => []
  | (m, s) :: c' => if Nat.eqb n m then s else cap_get n c'
  end.

Fixpoint drop_prefix (pat s : str) : option str :=
  match pat, s with
  | [], _ => Some s
  | p :: pat', x :: s' => if N.eqb p x then drop_prefix pat' s' else None
  | _ :: _, [] => None
  end.

Section Matcher.
Variable R : Type.
(** The subject string; every position is a suffix of it. *)
Variable whole : str.

Fixpoint star_greedy (p : char -> bool) (s : str) (k : str -> option R)
  : option R :=
  match s with
  | x :: s' =>
    if p x then
      match star_greedy p s' k with
      | Some r => Some r
      | None => k s
      end
    else k s
  | [] => k s
  end.

Fixpoint star_lazy (p : char -> bool) (s : str) (k : str -> option R)
  : option R :=
  match k s with
  | Some r => Some r
  | None =>
    match s with
    | x :: s' => if p x then star_lazy p s' k else None
    | [] => None
    end
  end.

Fixpoint rmatch (r : regex) (s : str) (c : caps)
         (k : str -> caps -> option R) : option R :=
  match r with
  | REps => k s c
  | RChr p =>
    match s with
    | x :: s' => if p x then k s' c else None
    | [] => None
    end
  | RLit l =>
    match drop_prefix l s with
    | Some s' => k s' c
    | None => None
    end
  | RCat r1 r2 => rmatch r1 s c (fun s' c' => rmatch r2 s' c' k)
  | RAlt r1 r2 =>
    match rmatch r1 s c k with
    | Some x => Some x
    | None => rmatch r2 s c k
    end
  | RStar true p => star_greedy p s (fun s' => k s' c)
  | RStar false p => star_lazy p s (fun s' => k s' c)
  | RGroup n r1 =>
    rmatch r1 s c
      (fun s' c' => k s' ((n, firstn (length s - length s') s) :: c'))
  | RBol => if Nat.eqb (length s) (length whole) then k s c else None
  | REol =>
    match s with
    | [] => k s c
    | [x] => if N.eqb x c_nl then k s c else None
    | _ => None
    end
  end.
End Matcher.

(** A match object: [m.start()], [m.end()] and the captured groups. *)
Record rematch : Type := MkMatch {
  m_start : nat;
  m_end : nat;
  m_caps : caps
}.

Definition group (m : rematch) (n : nat) : str := cap_get n (m_caps m).

Definition match_at (r : regex) (whole s : str) : option rematch :=
  rmatch whole r s []
    (fun s' c =>
       Some (MkMatch (length whole - length s) (length whole - length s') c)).

(** [re.match(r, s)]: a match starting at position 0. *)
Definition re_match (r : regex) (s : str) : option rematch :=
  match_at r s s.

Fixpoint search_from (r : regex) (whole s : str) : option rematch :=
  match match_at r whole s with
  | Some m => Some m
  | None =>
    match s with
    | _ :: s' => search_from r whole s'
    | [] => None
    end
  end.

(** [re.search(r, s)]: the match at the leftmost position that has one. *)
Definition re_search (r : regex) (s : str) : option rematch :=
  search_from r s s.

(** [re.sub(r'C+', rep, s)] for a character class [C]: every maximal run
    of [C] is replaced by [rep]. *)
Fixpoint sub_runs (p : char -> bool) (rep : str) (in_run : bool) (s : str)
  : str :=
  match s with
  | [] => []
  | x :: s' =>
    if p x then (if in_run then [] else rep) ++ sub_runs p rep true s'
    else x :: sub_runs p rep false s'
  end.

Definition re_sub_runs (p : char -> bool) (rep s : str) : str :=
  sub_runs p rep false s.

(** [re.split(r'•\s*', s)]: the pieces between the bullets, the white
    space that follows a bullet belonging to the separator.  [cur] is the
    piece being read, reversed; [skipping] holds right after a bullet. *)
Fixpoint split_bullets (s cur : str) (skipping : bool) : list str :=
  match s with
  | [] => [rev cur]
  | x :: s' =>
    if N.eqb x c_bullet then rev cur :: split_bullets s' [] true
    else if skipping && isspace x then split_bullets s' cur true
    else split_bullets s' (x :: cur) false
  end.

Definition re_split_bullets (s : str) : list str := split_bullets s [] false.

(* ================================================================== *)
(** ** JSON documents and Python dictionaries *)

(** An insertion-ordered dictionary with string keys. *)
Definition adict (V : Type) := list (str * V).

Section Dict.
Variable V : Type.

Fixpoint dict_get (d : adict V) (k : str) : option V :=
  match d with
  | [] => None
  | (k', v) :: d' => if str_eqb k' k then Some v else dict_get d' k
  end.

(** [k in d]. *)
Definition dict_has (d : adict V) (k : str) : bool :=
  match dict_get d k with Some _ => true | None => false end.

(** [d.get(k, dflt)]. *)
Definition dict_get_or (d : adict V) (k : str) (dflt : V) : V :=
  match dict_get d k with Some v => v | None => dflt end.

(** [d[k] = v]: an existing key keeps its place, a new one goes last. *)
Fixpoint dict_set (d : adict V) (k : str) (v : V) : adict V :=
  match d with
  | [] => [(k, v)]
  | (k', v') :: d' =>
    if str_eqb k' k then (k', v) :: d' else (k', v') :: dict_set d' k v
  end.

(** [d.pop(k, ...)], the dictionary that is left. *)
Fixpoint dict_del (d : adict V) (k : str) : adict V :=
  match d with
  | [] => []
  | (k', v') :: d' =>
    if str_eqb k' k then d' else (k', v') :: dict_del d' k
  end.

(** [d.setdefault(k, v)]. *)
Definition setdefault (d : adict V) (k : str) (v : V) : adict V :=
  if dict_has d k then d else dict_set d k v.
End Dict.

Unset Elimination Schemes.
Inductive json : Type :=
| JNull : json
| JBool : bool -> json
| JInt : Z -> json
| JStr : str -> json
| JList : list json -> json
| JDict : list (str * json) -> json.
Set Elimination Schemes.

Definition dict := adict json.

(** Python truth value of a JSON value. *)
Definition truthy (j : json) : bool :=
  match j with
  | JNull => false
  | JBool b => b
  | JInt z => negb (Z.eqb z 0)
  | JStr s => match s with [] => false | _ => true end
  | JList l => match l with [] => false | _ => true end
  | JDict d => match d with [] => false | _ => true end
  end.

(** [j == "text"]. *)
Definition is_str (j : json) (s : str) : bool :=
  match j with
  | JStr t => str_eqb t s
  | _ => false
  end.

(** The outcome of a call: a value, or an exception that ends the run. *)
Inductive result (A : Type) : Type :=
| Ok : A -> result A
| Raise : result A.
Arguments Raise {A}.

Definition bind {A B : Type} (m : result A) (k : A -> result B) : result B :=
  match m with
  | Ok a => k a
  | Raise => Raise
  end.

Notation "x <- m ;; k" := (bind m (fun x => k))
  (at level 61, m at next level, right associativity).

(** The receiver of [.get], [.items], [.pop] or [.setdefault] has to be a
    dictionary, any other JSON value raises [AttributeError]. *)
Definition as_dict (j : json) : result dict :=
  match j with
  | JDict d => Ok d
  | _ => Raise
  end.

(** [x.lower()] needs a string. *)
Definition as_str (j : json) : result str :=
  match j with
  | JStr s => Ok s
  | _ => Raise
  end.

(** [j.get(k, dflt)]. *)
Definition py_get (j : json) (k : str) (dflt : json) : result json :=
  d <- as_dict j ;; Ok (dict_get_or d k dflt).

(** [j[k]] for a string key: [KeyError] on a dictionary without the key,
    [TypeError] on every other value. *)
Definition py_index (j : json) (k : str) : result json :=
  match j with
  | JDict d =>
    match dict_get d k with
    | Some v => Ok v
    | None => Raise
    end
  | _ => Raise
  end.

(** What [for x in j] iterates over: the elements of a list, the keys of
    a dictionary, the characters of a string; other values raise. *)
Definition py_iter (j : json) : result (list json) :=
  match j with
  | JList l => Ok l
  | JDict d => Ok (map (fun kv => JStr (fst kv)) d)
  | JStr s => Ok (map (fun c => JStr [c]) s)
  | _ => Raise
  end.

(** [sep.join(parts)]. *)
Fixpoint join (sep : str) (parts : list str) : str :=
  match parts with
  | [] => []
  | [p] => p
  | p :: rest => p ++ sep ++ join sep rest
  end.

(** Lookup in one of the scripts' constant string tables,
    [TABLE.get(k, dflt)]. *)
Definition table_get (t : adict str) (k dflt : str) : str :=
  dict_get_or t k dflt.

(* ================================================================== *)
(** ** scripts/add-actor-items.py: tables and identifiers *)

Definition SKILL_CHARS : adict str :=
  [ (u "Acrobatics", u "ag"); (u "Athletics", u "s"); (u "Awareness", u "per");
    (u "Charm", u "fel"); (u "Command", u "fel"); (u "Commerce", u "int");
    (u "Common Lore", u "int"); (u "Deceive", u "fel"); (u "Dodge", u "ag");
    (u "Forbidden Lore", u "int"); (u "Inquiry", u "fel");
    (u "Interrogation", u "wp"); (u "Intimidate", u "s");
    (u "Linguistics", u "int"); (u "Logic", u "int"); (u "Medicae", u "int");
    (u "Navigate", u "int"); (u "Operate", u "ag"); (u "Parry", u "ws");
    (u "Psyniscience", u "per"); (u "Scholastic Lore", u "int");
    (u "Scrutiny", u "per"); (u "Security", u "int");
    (u "Sleight of Hand", u "ag"); (u "Stealth", u "ag");
    (u "Survival", u "per"); (u "Tech-Use", u "int"); (u "Trade", u "int") ].

Definition TRAIT_CATEGORIES : adict str :=
  [ (u "Fear", u "mental"); (u "Dark Sight", u "physical");
    (u "Unnatural Strength", u "physical");
    (u "Unnatural Toughness", u "physical");
    (u "Unnatural Willpower", u "mental");
    (u "Unnatural Agility", u "physical");
    (u "From Beyond", u "warp"); (u "Warp-Touched", u "warp");
    (u "Warp Instability", u "warp");
    (u "Regeneration", u "physical"); (u "Machine", u "physical");
    (u "Size", u "physical"); (u "Flyer", u "movement");
    (u "Bestial", u "mental"); (u "Quadruped", u "movement");
    (u "Daemonic", u "warp"); (u "Fearless", u "mental");
    (u "Mindless", u "mental"); (u "Shambling", u "movement");
    (u "Undying", u "warp");
    (u "Natural Armor", u "physical"); (u "Natural Armour", u "physical");
    (u "Psyker", u "warp"); (u "Warp Seer", u "warp");
    (u "Mechanicus Implants", u "physical"); (u "Multiple Arms", u "physical");
    (u "Latent Psyker", u "warp"); (u "Barovus Native", u "physical");
    (u "Disturbing", u "mental"); (u "Warp-Animated", u "warp") ].

Definition POWER_DISCIPLINES : adict str :=
  [ (u "Warp Fire", u "Pyromancy");
    (u "Telekinesis", u "Telekinesis");
    (u "Telekinetic Control", u "Telekinesis");
    (u "Telekinetic Storm", u "Telekinesis");
    (u "Domination", u "Telepathy");
    (u "Psychic Shriek", u "Telepathy");
    (u "Flesh Warp", u "Biomancy");
    (u "Warp Storm", u "Warp");
    (u "Warp Lightning", u "Warp");
    (u "Iron Arm", u "Biomancy");
    (u "Psychic Scream", u "Telepathy");
    (u "True Divination", u "Divination") ].

(** [next_id]: the global [_id_counter] is the threaded state. *)
Definition next_id (ctr : N) : str * N :=
  let ctr' := (ctr + 1)%N in
  (u "ski11ta1ent" ++ pad4 ctr', ctr').

(* ================================================================== *)
(** ** scripts/add-actor-items.py: parsing helpers *)

Definition nonempty (s : str) : bool :=
  match s with [] => false | _ => true end.

(** The loop of [split_respecting_parens], with its three variables. *)
Fixpoint srp_loop (text : str) (result : list str) (depth : Z) (current : str)
  : list str * str :=
  match text with
  | [] => (result, current)
  | ch :: rest =>
    if N.eqb ch c_lparen then
      srp_loop rest result (depth + 1)%Z (current ++ [ch])
    else if N.eqb ch c_rparen then
      srp_loop rest result (depth - 1)%Z (current ++ [ch])
    else if N.eqb ch c_comma && Z.eqb depth 0 then
      srp_loop rest (result ++ [strip current]) depth []
    else
      srp_loop rest result depth (current ++ [ch])
  end.

Definition split_respecting_parens (text : str) : list str :=
  let (result, current) := srp_loop text [] 0%Z [] in
  let result :=
    if nonempty current then result ++ [strip current] else result in
  filter nonempty result.

Definition cls_colon_or_space : char -> bool :=
  fun c => N.eqb c c_colon || isspace c.

(** The pattern of [extract_section].  The label is spliced into the
    pattern text; the labels the script passes (SKILLS, TALENTS, TRAITS)
    consist of letters, for which the splice is the literal label. *)
Definition section_re (section_name : str) : regex :=
  RSeq [ RLit section_name; RLit [c_colon]; RStar true isspace;
         RGroup 1 (RPlus false cls_any);
         RAny [ RLit [c_dot; c_nl];
                RLit [c_nl; c_nl];
                RSeq [ RLit [c_nl]; RChr cls_upper; RChr cls_upper;
                       RStar true cls_upper; RChr cls_colon_or_space ];
                REol ] ].

Definition extract_section (notes section_name : str) : list str :=
  match re_search (section_re section_name) notes with
  | None => []
  | Some m =>
    let text := strip (group m 1) in
    let text := rstrip_dot (re_sub_runs isspace (u " ") text) in
    split_respecting_parens text
  end.

Definition cls_dash : char -> bool :=
  fun c => N.eqb c c_emdash || N.eqb c c_endash.

(** [(.+?)\s*[—–]\s*(.+)] with DOTALL. *)
Definition dash_re : regex :=
  RSeq [ RGroup 1 (RPlus false cls_any); RStar true isspace; RChr cls_dash;
         RStar true isspace; RGroup 2 (RPlus true cls_any) ].

(** The loop over the bullets shared by [extract_special_abilities] and
    [extract_psychic_powers]: a bullet with a dash sets an entry of the
    dictionary, the others are skipped. *)
Fixpoint bullets_loop (parts : list str) (acc : adict str) : adict str :=
  match parts with
  | [] => acc
  | part :: rest =>
    let part := strip part in
    if nonempty part then
      match re_match dash_re part with
      | Some m =>
        let name := strip (group m 1) in
        let desc := strip (group m 2) in
        bullets_loop rest (dict_set acc name desc)
      | None => bullets_loop rest acc
      end
    else bullets_loop rest acc
  end.

Definition special_re : regex :=
  RSeq [ RAny [RLit (u "SPECIAL ABILITIES"); RLit (u "SPECIAL RULES")];
         RLit [c_colon]; RStar true isspace; RStar true (N.eqb c_nl);
         RGroup 1 (RStar false cls_any);
         RAny [ RCat (RLit [c_nl])
                  (RAny [ RLit (u "CASTLE"); RLit (u "PHASE");
                          RLit (u "DESTRUCTION"); RLit (u "FOUR");
                          RLit (u "GM "); RLit (u "TACTICS:");
                          RLit (u "GEAR:") ]);
                REol ] ].

Definition extract_special_abilities (notes : str) : adict str :=
  match re_search special_re notes with
  | None => []
  | Some m => bullets_loop (re_split_bullets (strip (group m 1))) []
  end.

Definition psychic_re : regex :=
  RSeq [ RLit (u "PSYCHIC POWERS:"); RStar true isspace;
         RStar true (N.eqb c_nl);
         RGroup 1 (RStar false cls_any);
         RAny [ RCat (RLit [c_nl])
                  (RAny [ RLit (u "SPECIAL"); RLit (u "GM ");
                          RLit (u "TACTICS:") ]);
                REol ] ].

Definition extract_psychic_powers (notes : str) : adict str :=
  match re_search psychic_re notes with
  | None => []
  | Some m => bullets_loop (re_split_bullets (strip (group m 1))) []
  end.

(* ================================================================== *)
(** ** scripts/add-actor-items.py: item builders *)

(** [\+(\d+)$] *)
Definition adv_re : regex :=
  RSeq [RLit [c_plus]; RGroup 1 (RPlus true isdigit); REol].

(** [^(.+?)\s*\((.+?)\)$] *)
Definition paren_re : regex :=
  RSeq [ RBol; RGroup 1 (RPlus false cls_dot); RStar true isspace;
         RLit [c_lparen]; RGroup 2 (RPlus false cls_dot);
         RLit [c_rparen]; REol ].

(** [^(.+?)\s*\((\d+)\)$] *)
Definition num_re : regex :=
  RSeq [ RBol; RGroup 1 (RPlus false cls_dot); RStar true isspace;
         RLit [c_lparen]; RGroup 2 (RPlus true isdigit);
         RLit [c_rparen]; REol ].

(** [^(.+?)\s*\(x(\d+)\)$] *)
Definition x_re : regex :=
  RSeq [ RBol; RGroup 1 (RPlus false cls_dot); RStar true isspace;
         RLit [c_lparen; c_x]; RGroup 2 (RPlus true isdigit);
         RLit [c_rparen]; REol ].

(** [(\d+)] *)
Definition digits_re : regex := RGroup 1 (RPlus true isdigit).

Definition skill_item (id name linked : str) (advancement : Z)
           (specialist : bool) (specialization : str) : json :=
  JDict [ (u "_id", JStr id);
          (u "name", JStr name);
          (u "type", JStr (u "skill"));
          (u "img", JStr (u "systems/dh2e/icons/items/skill.svg"));
          (u "system",
           JDict [ (u "description", JStr []);
                   (u "linkedCharacteristic", JStr linked);
                   (u "advancement", JInt advancement);
                   (u "isSpecialist", JBool specialist);
                   (u "specialization", JStr specialization) ]) ].

(** The loop over several specializations, one record each. *)
Fixpoint make_skill_specs (base_name : str) (advancement : Z)
         (specs : list str) (ctr : N) : list json * N :=
  match specs with
  | [] => ([], ctr)
  | spec :: rest =>
    let spec := strip spec in
    let full_name := base_name ++ u " (" ++ spec ++ u ")" in
    let linked := table_get SKILL_CHARS base_name (u "int") in
    let (id, ctr1) := next_id ctr in
    let (items, ctr2) := make_skill_specs base_name advancement rest ctr1 in
    (skill_item id full_name linked advancement true spec :: items, ctr2)
  end.

(** The advancement tier and the name left of a trailing [+N]. *)
Definition skill_advancement (entry : str) : Z * str :=
  match re_search adv_re entry with
  | Some m =>
    ((digits_value (group m 1) / 10)%Z, strip (firstn (m_start m) entry))
  | None => (0%Z, entry)
  end.

Definition make_skill (entry : str) (ctr : N) : list json * N :=
  let entry := rstrip_dot (strip entry) in
  let (advancement, name) := skill_advancement entry in
  match re_match paren_re name with
  | Some m =>
    let base_name := strip (group m 1) in
    let spec_text := strip (group m 2) in
    if existsb (N.eqb c_comma) spec_text then
      make_skill_specs base_name advancement (split_on c_comma spec_text) ctr
    else
      let linked := table_get SKILL_CHARS base_name (u "int") in
      let (id, ctr') := next_id ctr in
      ([skill_item id name linked advancement true spec_text], ctr')
  | None =>
    let linked := table_get SKILL_CHARS name (u "int") in
    let (id, ctr') := next_id ctr in
    ([skill_item id name linked advancement false []], ctr')
  end.

Definition make_talent (entry : str) (ctr : N) : json * N :=
  let name := rstrip_dot (strip entry) in
  let specialist :=
    match re_match paren_re name with Some _ => true | None => false end in
  let (id, ctr') := next_id ctr in
  (JDict [ (u "_id", JStr id);
           (u "name", JStr name);
           (u "type", JStr (u "talent"));
           (u "img", JStr (u "systems/dh2e/icons/items/talent.svg"));
           (u "system",
            JDict [ (u "description", JStr []);
                    (u "tier", JInt 1);
                    (u "aptitudes", JList []);
                    (u "prerequisites", JStr []);
                    (u "specialist", JBool specialist) ]) ],
   ctr').

(** The three values [make_trait] parses out of the name:
    [(has_rating, rating, category)]. *)
Definition trait_parse (name : str) : bool * Z * str :=
  match re_match num_re name with
  | Some m =>
    let base := strip (group m 1) in
    (true, digits_value (group m 2), table_get TRAIT_CATEGORIES base [])
  | None =>
    match re_match x_re name with
    | Some m =>
      let base := strip (group m 1) in
      (true, digits_value (group m 2), table_get TRAIT_CATEGORIES base [])
    | None =>
      match re_match paren_re name with
      | Some m =>
        let base := strip (group m 1) in
        let inner := strip (group m 2) in
        let category := table_get TRAIT_CATEGORIES base [] in
        match re_search digits_re inner with
        | Some im => (true, digits_value (group im 1), category)
        | None => (false, 0%Z, category)
        end
      | None => (false, 0%Z, table_get TRAIT_CATEGORIES name [])
      end
    end
  end.

Definition make_trait (entry description : str) (ctr : N) : json * N :=
  let name := rstrip_dot (strip entry) in
  let '(has_rating, rating, category) := trait_parse name in
  let (id, ctr') := next_id ctr in
  (JDict [ (u "_id", JStr id);
           (u "name", JStr name);
           (u "type", JStr (u "trait"));
           (u "img", JStr (u "systems/dh2e/icons/default-icons/trait.svg"));
           (u "system",
            JDict [ (u "description", JStr description);
                    (u "rules", JList []);
                    (u "hasRating", JBool has_rating);
                    (u "rating", JInt rating);
                    (u "category", JStr category) ]) ],
   ctr').

Definition make_power (name description discipline action range_str : str)
           (sustained : json) (focus_mod : Z) (ctr : N) : json * N :=
  let (id, ctr') := next_id ctr in
  (JDict [ (u "_id", JStr id);
           (u "name", JStr name);
           (u "type", JStr (u "power"));
           (u "img", JStr (u "systems/dh2e/icons/items/power.svg"));
           (u "system",
            JDict [ (u "description", JStr description);
                    (u "discipline", JStr discipline);
                    (u "cost", JInt 200);
                    (u "prerequisites", JStr []);
                    (u "focusTest", JStr (u "wp"));
                    (u "focusModifier", JInt focus_mod);
                    (u "range", JStr range_str);
                    (u "sustained", sustained);
                    (u "action", JStr action);
                    (u "subtype", JStr []);
                    (u "opposed", JBool false) ]) ],
   ctr').

(* ================================================================== *)
(** ** scripts/add-actor-items.py: [build_notes] and [process_actor] *)

(** [(\d+m\s*(?:cone|radius)?)] *)
Definition range_re : regex :=
  RGroup 1 (RSeq [ RPlus true isdigit; RLit (u "m"); RStar true isspace;
                   ROpt (RAny [RLit (u "cone"); RLit (u "radius")]) ]).

(** A string field of a record built by the [make_*] constructors. *)
Definition field_str (item : json) (k : str) : str :=
  match item with
  | JDict d =>
    match dict_get d k with
    | Some (JStr s) => s
    | _ => []
    end
  | _ => []
  end.

Definition item_type (item : json) : str := field_str item (u "type").
Definition item_name (item : json) : str := field_str item (u "name").

(** [name.split("(")[0].strip()] *)
Definition base_name_of (name : str) : str :=
  strip (hd [] (split_on c_lparen name)).

(** [sep.join(parts)] raises [TypeError] on a part that is not a string. *)
Fixpoint all_strs (parts : list json) : result (list str) :=
  match parts with
  | [] => Ok []
  | JStr s :: rest => ss <- all_strs rest ;; Ok (s :: ss)
  | _ :: _ => Raise
  end.

Definition regenerated_kinds : list str :=
  [u "skill"; u "talent"; u "trait"; u "power"].

(** [i.get("type") not in item_types_to_add] for one existing item: the
    receiver has to be a dictionary and its type has to be hashable. *)
Definition keeps_item (i : json) : result bool :=
  t <- py_get i (u "type") JNull ;;
  match t with
  | JList _ | JDict _ => Raise
  | _ => Ok (negb (existsb (is_str t) regenerated_kinds))
  end.

Fixpoint filter_items (items : list json) : result (list json) :=
  match items with
  | [] => Ok []
  | i :: rest =>
    keep <- keeps_item i ;;
    kept <- filter_items rest ;;
    Ok (if keep then i :: kept else kept)
  end.

Fixpoint skills_loop (entries : list str) (ctr : N) : list json * N :=
  match entries with
  | [] => ([], ctr)
  | entry :: rest =>
    let (items, ctr1) := make_skill entry ctr in
    let (more, ctr2) := skills_loop rest ctr1 in
    (items ++ more, ctr2)
  end.

Fixpoint talents_loop (entries : list str) (ctr : N) : list json * N :=
  match entries with
  | [] => ([], ctr)
  | entry :: rest =>
    let (item, ctr1) := make_talent entry ctr in
    let (more, ctr2) := talents_loop rest ctr1 in
    (item :: more, ctr2)
  end.

Fixpoint traits_loop (entries : list str) (ctr : N) : list json * N :=
  match entries with
  | [] => ([], ctr)
  | entry :: rest =>
    let (item, ctr1) := make_trait entry [] ctr in
    let (more, ctr2) := traits_loop rest ctr1 in
    (item :: more, ctr2)
  end.

(** The [already] test of the special-abilities loop. *)
Definition already_trait (new_items : list json) (sa_name : str) : bool :=
  existsb
    (fun item => str_eqb (base_name_of (item_name item)) (base_name_of sa_name))
    (filter (fun item => str_eqb (item_type item) (u "trait")) new_items).

Fixpoint specials_loop (abilities : adict str) (new_items : list json)
         (ctr : N) : list json * N :=
  match abilities with
  | [] => (new_items, ctr)
  | (sa_name, sa_desc) :: rest =>
    if already_trait new_items sa_name then specials_loop rest new_items ctr
    else
      let (item, ctr1) := make_trait sa_name sa_desc ctr in
      specials_loop rest (new_items ++ [item]) ctr1
  end.

Section Builtins.
(** Two built-ins of the Python runtime are taken as given:
    [str.lower], the full Unicode case mapping, and [repr] of a list or
    dictionary, which is what an f-string prints for one. *)
Variable str_lower : str -> str.
Variable py_repr : json -> str.

(** What an f-string field [{x}] prints. *)
Definition py_str (j : json) : str :=
  match j with
  | JStr s => s
  | JInt z => str_of_Z z
  | JBool true => u "True"
  | JBool false => u "False"
  | JNull => u "None"
  | _ => py_repr j
  end.

(** The MOVEMENT line that [build_notes] and [fix_actor] both print. *)
Definition movement_line (mv : json) : result str :=
  half <- py_get mv (u "half") (JInt 0) ;;
  full <- py_get mv (u "full") (JInt 0) ;;
  charge <- py_get mv (u "charge") (JInt 0) ;;
  run <- py_get mv (u "run") (JInt 0) ;;
  Ok ([c_nl] ++ u "MOVEMENT: Half " ++ py_str half
      ++ u ", Full " ++ py_str full
      ++ u ", Charge " ++ py_str charge
      ++ u ", Run " ++ py_str run).

(** The parts list of [build_notes] and [fix_actor], joined. *)
Definition notes_text (desc threat movement notes : json) : result str :=
  let p_desc := if truthy desc then [desc] else [] in
  let p_threat :=
    if truthy threat
    then [JStr ([c_nl] ++ u "THREAT RATING: " ++ py_str threat)]
    else [] in
  p_move <- (if truthy movement
             then line <- movement_line movement ;; Ok [JStr line]
             else Ok []) ;;
  let p_notes :=
    if truthy notes then [JStr ([c_nl] ++ py_str notes)] else [] in
  parts <- all_strs (p_desc ++ p_threat ++ p_move ++ p_notes) ;;
  Ok (join [c_nl] parts).

Definition build_notes (original_actor : json) : result str :=
  sys <- py_get original_actor (u "system") (JDict []) ;;
  desc <- py_get sys (u "description") (JStr []) ;;
  notes <- py_get sys (u "notes") (JStr []) ;;
  threat <- py_get sys (u "threatRating") (JStr []) ;;
  movement <- py_get sys (u "movement") JNull ;;
  notes_text desc threat movement notes.

Fixpoint powers_loop (powers : adict str) (ctr : N) : list json * N :=
  match powers with
  | [] => ([], ctr)
  | (pw_name, pw_desc) :: rest =>
    let discipline := table_get POWER_DISCIPLINES pw_name [] in
    let action :=
      if contains (u "Full Action") pw_desc
      then u "Full Action" else u "Half Action" in
    let sustained :=
      if contains (u "sustained") (str_lower pw_desc)
      then JStr (u "Half Action") else JBool false in
    let range_str :=
      match re_search range_re pw_desc with
      | Some m => group m 1
      | None =>
        if contains (u "touch") (str_lower pw_desc) then u "Touch" else []
      end in
    let (item, ctr1) :=
      make_power pw_name pw_desc discipline action range_str sustained 0 ctr in
    let (more, ctr2) := powers_loop rest ctr1 in
    (item :: more, ctr2)
  end.

(** The list [new_items] that [process_actor] derives from the notes. *)
Definition derive_items (orig_notes : str) (ctr : N) : list json * N :=
  let (skills, c1) := skills_loop (extract_section orig_notes (u "SKILLS")) ctr in
  let (talents, c2) :=
    talents_loop (extract_section orig_notes (u "TALENTS")) c1 in
  let (traits, c3) :=
    traits_loop (extract_section orig_notes (u "TRAITS")) c2 in
  let (with_specials, c4) :=
    specials_loop (extract_special_abilities orig_notes)
                  (skills ++ talents ++ traits) c3 in
  let (powers, c5) := powers_loop (extract_psychic_powers orig_notes) c4 in
  (with_specials ++ powers, c5).

(** [process_actor]: the actor as it is left, the count returned and
    the identifier counter. *)
Definition process_actor (current_actor original_actor : json) (ctr : N)
  : result (json * nat * N) :=
  osys <- py_get original_actor (u "system") (JDict []) ;;
  orig_notes <- py_get osys (u "notes") (JStr []) ;;
  cur <- as_dict current_actor ;;
  if negb (truthy orig_notes) then Ok (current_actor, 0, ctr)
  else
    full_notes <- build_notes original_actor ;;
    csys <- py_index current_actor (u "system") ;;
    sysd <- as_dict csys ;;
    cdet <- py_index csys (u "details") ;;
    detd <- as_dict cdet ;;
    let detd' := dict_set detd (u "notes") (JStr full_notes) in
    let sysd' := dict_set sysd (u "details") (JDict detd') in
    let cur1 := dict_set cur (u "system") (JDict sysd') in
    notes_s <- as_str orig_notes ;;
    let (new_items, ctr') := derive_items notes_s ctr in
    match new_items with
    | [] => Ok (JDict cur1, 0, ctr')
    | _ :: _ =>
      old <- py_iter (dict_get_or cur1 (u "items") (JList [])) ;;
      kept <- filter_items old ;;
      Ok (JDict (dict_set cur1 (u "items") (JList (kept ++ new_items))),
          length new_items, ctr')
    end.
End Builtins.

(* ================================================================== *)
(** ** scripts/fix-actor-data.py *)

Definition DAMAGE_TYPE_MAP : adict str :=
  [ (u "E", u "energy"); (u "R", u "rending");
    (u "I", u "impact"); (u "X", u "explosive") ].

Definition WEAPON_CLASS_MAP : adict str :=
  [ (u "Melee", u "melee"); (u "Pistol", u "ranged"); (u "Basic", u "ranged");
    (u "Heavy", u "ranged"); (u "Thrown", u "thrown") ].

(** One entry of [fix_characteristics]. *)
Definition fix_characteristic (val : json) : json :=
  match val with
  | JDict v =>
    let base := dict_get_or v (u "base") (dict_get_or v (u "value") (JInt 25)) in
    let advances := dict_get_or v (u "advances") (JInt 0) in
    JDict [(u "base", base); (u "advances", advances)]
  | _ => JDict [(u "base", val); (u "advances", JInt 0)]
  end.

Fixpoint fix_characteristics_loop (items fixed : dict) : dict :=
  match items with
  | [] => fixed
  | (key, val) :: rest =>
    fix_characteristics_loop rest (dict_set fixed key (fix_characteristic val))
  end.

Definition fix_characteristics (chars : json) : result json :=
  d <- as_dict chars ;;
  Ok (JDict (fix_characteristics_loop d [])).

(** The six body locations, in the order the scripts write them. *)
Definition LOCATIONS : list str :=
  [u "head"; u "rightArm"; u "leftArm"; u "body"; u "rightLeg"; u "leftLeg"].

(** [{"head": locs.get("head", 0), ...}] *)
Definition locations_of (locs : dict) : json :=
  JDict (map (fun loc => (loc, dict_get_or locs loc (JInt 0))) LOCATIONS).

(** [{"head": val, ...}] *)
Definition uniform_armour (val : json) : json :=
  JDict (map (fun loc => (loc, val)) LOCATIONS).

(** The test of the loop that looks for an embedded armour item. *)
Definition is_armour_item (item : json) : bool :=
  match item with
  | JDict d => is_str (dict_get_or d (u "type") JNull) (u "armour")
  | _ => false
  end.

Definition fix_actor_armour (actor : json) : result json :=
  items <- py_get actor (u "items") (JList []) ;;
  elems <- py_iter items ;;
  match find is_armour_item elems with
  | Some armour_item =>
    sys_data <- py_get armour_item (u "system") (JDict []) ;;
    by_locations <- py_get sys_data (u "locations") (JDict []) ;;
    locs <- py_get sys_data (u "ap") by_locations ;;
    locd <- as_dict locs ;;
    Ok (locations_of locd)
  | None =>
    sys <- py_get actor (u "system") (JDict []) ;;
    old_armour <- py_get sys (u "armour") (JDict []) ;;
    match old_armour with
    | JDict d =>
      match dict_get d (u "value") with
      | Some val => Ok (uniform_armour val)
      | None => Ok (uniform_armour (JInt 0))
      end
    | _ => Ok (uniform_armour (JInt 0))
    end
  end.

(** The digits of [int(s)], single underscores allowed between them. *)
Fixpoint int_digits (s : str) (acc : Z) (after_digit : bool) : option Z :=
  match s with
  | [] => if after_digit then Some acc else None
  | c :: rest =>
    if isdigit c then int_digits rest (acc * 10 + digit_value c)%Z true
    else if N.eqb c c_underscore && after_digit then int_digits rest acc false
    else None
  end.

(** [int(s)] on a string; [None] is [ValueError]. *)
Definition py_int (s : str) : option Z :=
  match strip s with
  | [] => None
  | c :: rest =>
    if N.eqb c c_minus then option_map Z.opp (int_digits rest 0%Z false)
    else if N.eqb c c_plus then int_digits rest 0%Z false
    else int_digits (c :: rest) 0%Z false
  end.

Definition rof_dict (single : bool) (semi full : Z) : json :=
  JDict [(u "single", JBool single); (u "semi", JInt semi); (u "full", JInt full)].

(** [int(p.strip()) if p.strip() != "-" else 0], with [ValueError]
    caught and replaced by 0. *)
Definition rof_count (p : str) : Z :=
  if str_eqb (strip p) (u "-") then 0%Z
  else match py_int (strip p) with Some z => z | None => 0%Z end.

(** [s.upper() == "S"]: the three strings whose upper case is S. *)
Definition upper_is_S (s : str) : bool :=
  match s with
  | [c] => N.eqb c 83 || N.eqb c 115 || N.eqb c 383
  | _ => false
  end.

Definition parse_rof (rof_str : json) : json :=
  match rof_str with
  | JStr s =>
    if nonempty s then
      match split_on 47 s with
      | [p0; p1; p2] =>
        rof_dict (upper_is_S (strip p0)) (rof_count p1) (rof_count p2)
      | _ => rof_dict true 0 0
      end
    else rof_dict false 0 0
  | _ => rof_dict false 0 0
  end.

(** [d["k"] = v] only when the source key is present. *)
Definition copy_if_present (src : dict) (k : str) (fixed : dict) : dict :=
  match dict_get src k with
  | Some v => dict_set fixed k v
  | None => fixed
  end.

Definition fix_armour_item (item_sys : json) : result json :=
  d <- as_dict item_sys ;;
  locs <- as_dict (dict_get_or d (u "ap") (dict_get_or d (u "locations") (JDict []))) ;;
  let fixed :=
    [ (u "description", dict_get_or d (u "description") (JStr []));
      (u "locations", locations_of locs);
      (u "maxAgility", dict_get_or d (u "maxAgility") (JInt 0));
      (u "qualities", dict_get_or d (u "qualities") (JList []));
      (u "weight", dict_get_or d (u "weight") (JInt 0));
      (u "equipped", dict_get_or d (u "equipped") (JBool true)) ] in
  Ok (JDict (copy_if_present d (u "availability") fixed)).

Definition fix_gear_item (item_sys : json) : result json :=
  d <- as_dict item_sys ;;
  let fixed :=
    [ (u "description", dict_get_or d (u "description") (JStr []));
      (u "weight", dict_get_or d (u "weight") (JInt 0));
      (u "quantity", dict_get_or d (u "quantity") (JInt 1)) ] in
  Ok (JDict (copy_if_present d (u "availability") fixed)).

Definition template_defaults : list (str * json) :=
  [ (u "fate", JDict [(u "value", JInt 0); (u "max", JInt 0)]);
    (u "fatigue", JInt 0);
    (u "corruption", JInt 0);
    (u "insanity", JInt 0);
    (u "influence", JInt 0);
    (u "xp", JDict [(u "total", JInt 0); (u "spent", JInt 0)]);
    (u "aptitudes", JList []);
    (u "defeated", JBool false) ].

(** [d.setdefault(k, v)], or [if k not in d: d[k] = v], for each pair in
    turn. *)
Definition fill_defaults (defaults : list (str * json)) (d : dict) : dict :=
  fold_left (fun acc kv => setdefault acc (fst kv) (snd kv)) defaults d.

Definition fill_template (sys : dict) : dict :=
  fill_defaults template_defaults sys.

Section FixActor.
Variable str_lower : str -> str.
Variable py_repr : json -> str.

(** [TABLE.get(x, x.lower())]: the default is computed first, so [x]
    has to be a string. *)
Definition mapped_or_lower (table : adict str) (x : json) : result json :=
  s <- as_str x ;;
  Ok (JStr (table_get table s (str_lower s))).

Definition fix_weapon_rof (d : dict) : json :=
  match dict_get d (u "rof") with
  | Some rof => rof
  | None =>
    match dict_get d (u "rateOfFire") with
    | Some r => parse_rof r
    | None => rof_dict false 0 0
    end
  end.

Definition fix_weapon_damage (d : dict) : result json :=
  match dict_get d (u "damage") with
  | Some (JDict dmg) => Ok (JDict dmg)
  | _ =>
    let damage_str := dict_get_or d (u "damage") (JStr (u "1d10")) in
    let damage_type := dict_get_or d (u "damageType") (JStr (u "I")) in
    ty <- mapped_or_lower DAMAGE_TYPE_MAP damage_type ;;
    Ok (JDict [ (u "formula", damage_str); (u "type", ty);
                (u "bonus", JInt 0) ])
  end.

Definition clip_of (clip_val : Z) : json :=
  JDict [(u "value", JInt clip_val); (u "max", JInt clip_val)].

(** A boolean is an [int] for [isinstance], and [int(True)] is 1. *)
Definition fix_weapon_clip (d : dict) : json :=
  match dict_get d (u "clip") with
  | Some (JDict c) => JDict c
  | Some (JInt z) => clip_of z
  | Some (JBool b) => clip_of (if b then 1 else 0)%Z
  | _ => clip_of 0%Z
  end.

Definition fix_weapon_qualities (d : dict) : result json :=
  match dict_get d (u "qualities") with
  | Some (JList q) => Ok (JList q)
  | _ =>
    match dict_get d (u "special") with
    | Some special =>
      if truthy special then
        s <- as_str special ;;
        Ok (JList (map JStr (filter nonempty
                               (map strip (split_on c_comma s)))))
      else Ok (JList [])
    | None => Ok (JList [])
    end
  end.

Definition fix_weapon (item_sys : json) : result json :=
  d <- as_dict item_sys ;;
  class <- mapped_or_lower WEAPON_CLASS_MAP
             (dict_get_or d (u "class") (JStr (u "melee"))) ;;
  damage <- fix_weapon_damage d ;;
  qualities <- fix_weapon_qualities d ;;
  let fixed :=
    [ (u "description", dict_get_or d (u "description") (JStr []));
      (u "class", class);
      (u "range", dict_get_or d (u "range") (JInt 0));
      (u "rof", fix_weapon_rof d);
      (u "damage", damage);
      (u "penetration", dict_get_or d (u "penetration") (JInt 0));
      (u "clip", fix_weapon_clip d);
      (u "reload", dict_get_or d (u "reload") (JStr []));
      (u "weight", dict_get_or d (u "weight") (JInt 0));
      (u "qualities", qualities);
      (u "equipped", dict_get_or d (u "equipped") (JBool true)) ] in
  Ok (JDict (copy_if_present d (u "availability") fixed)).

(** The body of the loop over the embedded items of [fix_actor]. *)
Definition fix_item (item : json) : result json :=
  match item with
  | JDict d =>
    let item_sys := dict_get_or d (u "system") (JDict []) in
    let item_type := dict_get_or d (u "type") (JStr []) in
    if is_str item_type (u "weapon") then
      s <- fix_weapon item_sys ;; Ok (JDict (dict_set d (u "system") s))
    else if is_str item_type (u "armour") then
      s <- fix_armour_item item_sys ;; Ok (JDict (dict_set d (u "system") s))
    else if is_str item_type (u "gear") then
      s <- fix_gear_item item_sys ;; Ok (JDict (dict_set d (u "system") s))
    else Ok item
  | _ => Ok item
  end.

Fixpoint fix_items (items : list json) : result (list json) :=
  match items with
  | [] => Ok []
  | item :: rest =>
    item' <- fix_item item ;;
    rest' <- fix_items rest ;;
    Ok (item' :: rest')
  end.

(** [fix_actor].  [sys] is the actor's own [system] dictionary, or a new
    one when the actor has none; it is written back in the last line.
    [fix_actor_armour] reads the armour of the actor, which step 1 has
    not touched. *)
Definition fix_actor (actor : json) : result json :=
  a <- as_dict actor ;;
  sys <- as_dict (dict_get_or a (u "system") (JDict [])) ;;
  (* 1. characteristics *)
  sys1 <- match dict_get sys (u "characteristics") with
          | Some chars =>
            fixed <- fix_characteristics chars ;;
            Ok (dict_set sys (u "characteristics") fixed)
          | None => Ok sys
          end ;;
  (* 2. actor-level armour *)
  armour <- fix_actor_armour actor ;;
  let sys2 := dict_set sys1 (u "armour") armour in
  (* 3. missing template fields *)
  let sys3 := fill_template sys2 in
  (* 4. details *)
  let old_notes := dict_get_or sys3 (u "notes") (JStr []) in
  let sys4 := dict_del sys3 (u "notes") in
  let old_desc := dict_get_or sys4 (u "description") (JStr []) in
  let old_threat := dict_get_or sys4 (u "threatRating") (JStr []) in
  let sys5 := dict_del sys4 (u "threatRating") in
  let old_movement := dict_get_or sys5 (u "movement") JNull in
  let sys6 := dict_del sys5 (u "movement") in
  combined_notes <- notes_text py_repr old_desc old_threat old_movement old_notes ;;
  let details :=
    JDict [ (u "homeworld", JStr []);
            (u "background", JStr []);
            (u "role", if truthy old_threat then old_threat else JStr []);
            (u "divination", JStr []);
            (u "notes", JStr combined_notes) ] in
  let sys7 := dict_set sys6 (u "details") details in
  (* 5. items *)
  a' <- match dict_get a (u "items") with
        | Some (JList items) =>
          items' <- fix_items items ;;
          Ok (dict_set a (u "items") (JList items'))
        | _ => Ok a
        end ;;
  Ok (JDict (dict_set a' (u "system") (JDict sys7))).
End FixActor.

(* ================================================================== *)
(** ** scripts/refactor-data.py *)

(** [^Size\s*\((.+?)\)$] *)
Definition size_re : regex :=
  RSeq [ RBol; RLit (u "Size"); RStar true isspace; RLit [c_lparen];
         RGroup 1 (RPlus false cls_dot); RLit [c_rparen]; REol ].

(** [[^a-z0-9]] *)
Definition cls_not_slug : char -> bool :=
  fun c => negb (in_range 97 122 c || in_range 48 57 c).

Definition parse_trait_name (name : str) : str * Z :=
  match re_match num_re name with
  | Some m => (strip (group m 1), digits_value (group m 2))
  | None =>
    match re_match x_re name with
    | Some m => (strip (group m 1), digits_value (group m 2))
    | None =>
      match re_match paren_re name with
      | Some m =>
        let base := strip (group m 1) in
        let inner := strip (group m 2) in
        match re_search digits_re inner with
        | Some num => (base, digits_value (group num 1))
        | None => (base, 0%Z)
        end
      | None => (strip name, 0%Z)
      end
    end
  end.

Definition rule (fields : list (str * str)) : json :=
  JDict (map (fun kv => (fst kv, JStr (snd kv))) fields).

Definition roll_option (option : str) : json :=
  rule [(u "key", u "RollOption"); (u "option", option)].

Definition flat_modifier (domain : str) : json :=
  rule [ (u "key", u "FlatModifier"); (u "domain", domain);
         (u "value", u "rating") ].

Definition adjust_toughness : json :=
  rule [ (u "key", u "AdjustToughness"); (u "mode", u "add");
         (u "value", u "rating") ].

Definition resistance (damage_type : str) : json :=
  rule [ (u "key", u "Resistance"); (u "damageType", damage_type);
         (u "mode", u "half") ].

Definition strs (l : list str) : list json := map JStr l.

(** [s == "literal"] *)
Definition str_is (s : str) (literal : string) : bool :=
  str_eqb s (u literal).

Definition in_strs (s : str) (l : list str) : bool := existsb (str_eqb s) l.

Section Refactor.
Variable str_lower : str -> str.

Definition slugify (name : str) : str :=
  strip_dash (re_sub_runs cls_not_slug (u "-") (str_lower name)).

Definition get_trait_rules_and_immunities (name : str) (rating : json)
  : list json * list json :=
  let base := fst (parse_trait_name name) in
  let parsed_rating := snd (parse_trait_name name) in
  let rating := if Z.eqb parsed_rating 0 then rating else JInt parsed_rating in
  if str_is base "Fear" then ([roll_option (u "self:fear")], [])
  else if str_is base "Dark Sight" then ([roll_option (u "self:dark-sight")], [])
  else if str_is base "Unnatural Strength" then ([flat_modifier (u "damage")], [])
  else if str_is base "Unnatural Toughness" then ([adjust_toughness], [])
  else if str_is base "Unnatural Willpower" then
    ([flat_modifier (u "characteristic:wp")], [])
  else if str_is base "Unnatural Agility" then
    ([flat_modifier (u "characteristic:ag")], [])
  else if str_is base "From Beyond" then
    ([roll_option (u "self:from-beyond")],
     strs [u "Fear"; u "Pinning"; u "Insanity"])
  else if str_is base "Regeneration" then ([roll_option (u "self:regeneration")], [])
  else if in_strs base [u "Natural Armor"; u "Natural Armour"] then
    ([flat_modifier (u "armour")], [])
  else if str_is base "Daemonic" then
    ([adjust_toughness; roll_option (u "self:daemonic")],
     strs [u "Fear"; u "Pinning"; u "Disease"; u "Poison"])
  else if str_is base "Machine" then
    ([flat_modifier (u "armour"); roll_option (u "self:machine")],
     strs [u "Fear"; u "Pinning"; u "Disease"; u "Poison"])
  else if str_is base "Mindless" then
    ([roll_option (u "self:mindless")],
     strs [u "Fear"; u "Pinning"; u "psychic-mind"])
  else if str_is base "Fearless" then
    ([roll_option (u "self:fearless")], strs [u "Fear"])
  else if str_is base "Stuff of Nightmares" then
    ([roll_option (u "self:stuff-of-nightmares")],
     strs [u "critical"; u "bleeding"; u "stun"])
  else if str_is base "Incorporeal" then
    ([ resistance (u "impact"); resistance (u "rending");
       resistance (u "explosive"); roll_option (u "self:incorporeal") ], [])
  else if str_is base "Brutal Charge" then
    ([JDict [ (u "key", JStr (u "FlatModifier"));
              (u "domain", JStr (u "damage"));
              (u "value", JStr (u "rating"));
              (u "predicate", JList [JStr (u "action:charge")]) ]], [])
  else if str_is base "Size" then
    let cat :=
      match re_match size_re name with
      | Some m => slugify (group m 1)
      | None => u "average"
      end in
    ([roll_option (u "self:size:" ++ cat)], [])
  else if in_strs base
            [ u "Flyer"; u "Toxic"; u "Shambling"; u "Quadruped";
              u "Bestial"; u "Undying"; u "Warp Instability";
              u "Warp-Touched"; u "Multiple Arms"; u "Mechanicus Implants";
              u "Psyker"; u "Warp Seer"; u "Disturbing"; u "Warp-Animated" ]
  then ([roll_option (u "self:" ++ slugify base)], [])
  else ([roll_option (u "self:" ++ slugify base)], []).
End Refactor.

(** [x > 0] on a JSON value: booleans count as 0 and 1, the other
    non-numbers raise [TypeError]. *)
Definition py_gt0 (j : json) : result bool :=
  match j with
  | JInt z => Ok (0 <? z)%Z
  | JBool b => Ok b
  | _ => Raise
  end.

Definition weapon_defaults : list (str * json) :=
  [ (u "magazine", JDict [(u "value", JInt 0); (u "max", JInt 0)]);
    (u "craftsmanship", JStr (u "common"));
    (u "weaponGroup", JStr []);
    (u "loadedAmmoId", JStr []);
    (u "loadedMagazineName", JStr []);
    (u "loadedRounds", JList []);
    (u "reloadProgress", JInt 0);
    (u "rules", JList []) ].

(** The value [refactor_weapon] infers for [loadType]. *)
Definition infer_load_type (sys : dict) : result json :=
  let mag := dict_get_or sys (u "magazine") (JDict []) in
  let class := dict_get_or sys (u "class") JNull in
  let is_ranged := is_str class (u "ranged") || is_str class (u "thrown") in
  let max_val :=
    match mag with
    | JDict m => dict_get_or m (u "max") (JInt 0)
    | _ => JInt 0
    end in
  if is_ranged then
    positive <- py_gt0 max_val ;;
    Ok (JStr (if positive then u "magazine" else []))
  else Ok (JStr []).

(** The last step of [refactor_weapon]: a melee weapon whose [rof] is a
    dictionary with a false or missing [single] gets [single] set. *)
Definition fix_melee_rof (sys : dict) : dict :=
  if is_str (dict_get_or sys (u "class") JNull) (u "melee") then
    match dict_get sys (u "rof") with
    | Some (JDict rof) =>
      if negb (truthy (dict_get_or rof (u "single") JNull))
      then dict_set sys (u "rof") (JDict (dict_set rof (u "single") (JBool true)))
      else sys
    | _ => sys
    end
  else sys.

(** The first step of [refactor_weapon]: [clip] is renamed to
    [magazine] unless there is a [magazine] already. *)
Definition rename_clip (d : dict) : dict :=
  match dict_get d (u "clip") with
  | Some clip =>
    if dict_has d (u "magazine") then d
    else dict_set (dict_del d (u "clip")) (u "magazine") clip
  | None => d
  end.

(** [refactor_weapon]: the weapon's [system] dictionary as it is left. *)
Definition refactor_weapon (sys : json) : result json :=
  d <- as_dict sys ;;
  let d2 := fill_defaults weapon_defaults (rename_clip d) in
  d3 <- (if dict_has d2 (u "loadType") then Ok d2
         else lt <- infer_load_type d2 ;; Ok (dict_set d2 (u "loadType") lt)) ;;
  Ok (JDict (fix_melee_rof d3)).

(* ================================================================== *)
(** ** The built-ins on plain data, for the closed examples

    [str.lower] restricted to strings whose only cased letters are ASCII,
    and [repr] restricted to containers whose strings need no escaping. *)

Definition ascii_lower (s : str) : str :=
  map (fun c => if in_range 65 90 c then (c + 32)%N else c) s.

Fixpoint plain_repr (j : json) : str :=
  match j with
  | JNull => u "None"
  | JBool true => u "True"
  | JBool false => u "False"
  | JInt z => str_of_Z z
  | JStr s => u "'" ++ s ++ u "'"
  | JList l => u "[" ++ join (u ", ") (map plain_repr l) ++ u "]"
  | JDict d =>
    u "{"
    ++ join (u ", ")
         (map (fun kv => u "'" ++ fst kv ++ u "': " ++ plain_repr (snd kv)) d)
    ++ u "}"
  end.

(* ================================================================== *)
(** ** Vocabulary of the statements *)

(** A field of the [system] dictionary of an item. *)
Definition system_field (item : json) (k : str) : option json :=
  match item with
  | JDict d =>
    match dict_get d (u "system") with
    | Some (JDict s) => dict_get s k
    | _ => None
    end
  | _ => None
  end.

(** The embedded items of an actor. *)
Definition items_of (actor : json) : list json :=
  match actor with
  | JDict d =>
    match dict_get d (u "items") with
    | Some (JList l) => l
    | _ => []
    end
  | _ => []
  end.

(** The test of [process_actor] for the kinds it regenerates, on the
    type of an item. *)
Definition is_regenerated (item : json) : bool :=
  match item with
  | JDict d => existsb (is_str (dict_get_or d (u "type") JNull)) regenerated_kinds
  | _ => false
  end.

Definition is_trait (item : json) : bool := str_eqb (item_type item) (u "trait").

(** [#(] minus [#)] over a string: the nesting depth it leaves. *)
Fixpoint depth_of (s : str) : Z :=
  match s with
  | [] => 0%Z
  | c :: s' =>
    ((if N.eqb c c_lparen then 1 else if N.eqb c c_rparen then -1 else 0)
     + depth_of s')%Z
  end.

(** Every comma of [s] lies inside a parenthetical: the depth in front of
    it, counted from [d] at the start of [s], is not zero. *)
Fixpoint commas_nested (d : Z) (s : str) : Prop :=
  match s with
  | [] => True
  | c :: s' =>
    (N.eqb c c_comma = true -> d <> 0%Z)
    /\ commas_nested
         (if N.eqb c c_lparen then d + 1
          else if N.eqb c c_rparen then d - 1 else d)%Z s'
  end.

(** The name [make_skill] is left with once the advancement is cut off,
    and the base name under which it looks up [SKILL_CHARS]. *)
Definition skill_name (entry : str) : str :=
  snd (skill_advancement (rstrip_dot (strip entry))).

Definition skill_base_name (entry : str) : str :=
  match re_match paren_re (skill_name entry) with
  | Some m => strip (group m 1)
  | None => skill_name entry
  end.







(** The notes of the original actor that [process_actor] reads. *)
Definition notes_of (original_actor : json) : result json :=
  osys <- py_get original_actor (u "system") (JDict []) ;;
  py_get osys (u "notes") (JStr []).



(** The [value] of a derived rule, when it has one. *)
Definition rule_value (rule : json) : option json :=
  match rule with
  | JDict d => dict_get d (u "value")
  | _ => None
  end.

(* ================================================================== *)
(** ** Example documents *)

(** A trait record as [make_trait] writes it. *)
Definition trait_record (id name description : str) (has_rating : bool)
           (rating : Z) (category : str) : json :=
  JDict [ (u "_id", JStr id);
          (u "name", JStr name);
          (u "type", JStr (u "trait"));
          (u "img", JStr (u "systems/dh2e/icons/default-icons/trait.svg"));
          (u "system",
           JDict [ (u "description", JStr description);
                   (u "rules", JList []);
                   (u "hasRating", JBool has_rating);
                   (u "rating", JInt rating);
                   (u "category", JStr category) ]) ].

(** An actor in the legacy format, and what one and two runs of
    [fix_actor] leave of it. *)
Definition ghoul : json :=
  JDict [ (u "name", JStr (u "Ghoul"));
          (u "system",
           JDict [ (u "armour", JDict [(u "value", JInt 3)]);
                   (u "description", JStr (u "A pale scavenger."));
                   (u "notes", JStr (u "TRAITS: Fear (1)"));
                   (u "threatRating", JStr (u "Minoris")) ]) ].

Definition ghoul_system (armour : json) (role notes : str) : json :=
  JDict ([ (u "armour", armour);
           (u "description", JStr (u "A pale scavenger.")) ]
         ++ template_defaults
         ++ [ (u "details",
               JDict [ (u "homeworld", JStr []);
                       (u "background", JStr []);
                       (u "role", JStr role);
                       (u "divination", JStr []);
                       (u "notes", JStr notes) ]) ]).

Definition ghoul_fixed : json :=
  JDict [ (u "name", JStr (u "Ghoul"));
          (u "system",
           ghoul_system (uniform_armour (JInt 3)) (u "Minoris")
             (u "A pale scavenger." ++ [c_nl; c_nl] ++ u "THREAT RATING: Minoris"
              ++ [c_nl; c_nl] ++ u "TRAITS: Fear (1)")) ].

Definition ghoul_fixed_twice : json :=
  JDict [ (u "name", JStr (u "Ghoul"));
          (u "system",
           ghoul_system (uniform_armour (JInt 0)) [] (u "A pale scavenger.")) ].

(** An actor with a legacy armour value and an embedded armour item. *)
Definition plated : json :=
  JDict [ (u "name", JStr (u "Castle Guard"));
          (u "system", JDict [(u "armour", JDict [(u "value", JInt 3)])]);
          (u "items",
           JList [ JDict [ (u "name", JStr (u "Rusted Helm"));
                           (u "type", JStr (u "armour"));
                           (u "system",
                            JDict [(u "ap", JDict [(u "head", JInt 5)])]) ] ]) ].



(** An actor that already holds three derived trait records, and its
    original with the given notes. *)
Definition thrall : json :=
  JDict [ (u "name", JStr (u "Crypt Thrall"));
          (u "system", JDict [(u "details", JDict [(u "notes", JStr [])])]);
          (u "items",
           JList [ JDict [(u "name", JStr (u "Rusted Blade"));
                          (u "type", JStr (u "weapon"))];
                   trait_record (u "old1") (u "Fear (1)") [] true 1 (u "mental");
                   trait_record (u "old2") (u "Size (Hulking)") [] false 0
                                (u "physical");
                   trait_record (u "old3") (u "Undying") [] false 0 (u "warp") ]) ].

Definition thrall_original (notes : str) : json :=
  JDict [ (u "name", JStr (u "Crypt Thrall"));
          (u "system", JDict [(u "notes", JStr notes)]) ].

(** A melee weapon whose [single] is a string. *)
Definition rusty_blade : json :=
  JDict [ (u "class", JStr (u "melee"));
          (u "rof", JDict [(u "single", JStr (u "S")); (u "semi", JInt 0);
                           (u "full", JInt 0)]) ].

(* ================================================================== *)
(** * Properties *)

Unset Implicit Arguments.

#[local] Arguments u : simpl never.
#[local] Arguments next_id : simpl never.
#[local] Arguments strip : simpl never.
#[local] Arguments rstrip_dot : simpl never.
#[local] Arguments table_get : simpl never.

(** ** Strings and dictionaries *)

Lemma str_eqb_refl (s : str) : str_eqb s s = true.
Proof.
  induction s as [|c s IH]; simpl; [reflexivity|].
  now rewrite N.eqb_refl, IH.
Qed.

Lemma str_eqb_eq (a b : str) : str_eqb a b = true <-> a = b.
Proof.
  split.
  - revert b; induction a as [|x a IH]; intros [|y b] H; simpl in H;
      try discriminate; [reflexivity|].
    apply andb_true_iff in H as [Hx Hs].
    apply N.eqb_eq in Hx. apply IH in Hs. now subst.
  - intros ->. apply str_eqb_refl.
Qed.

Lemma str_eqb_neq (a b : str) : str_eqb a b = false <-> a <> b.
Proof.
  rewrite <- str_eqb_eq. destruct (str_eqb a b); split; congruence.
Qed.

Lemma lstrip_by_head (p : char -> bool) (s : str) :
  match lstrip_by p s with [] => True | c :: _ => p c = false end.
Proof.
  induction s as [|c s IH]; simpl; [exact I|].
  destruct (p c) eqn:E; [exact IH|exact E].
Qed.

Lemma lstrip_by_fixed (p : char -> bool) (c : char) (s : str) :
  p c = false -> lstrip_by p (c :: s) = c :: s.
Proof. intros H; simpl; now rewrite H. Qed.

Lemma lstrip_by_suffix (p : char -> bool) (s : str) :
  exists pre, s = pre ++ lstrip_by p s /\ forallb p pre = true.
Proof.
  induction s as [|c s [pre [E F]]]; simpl.
  - now exists [].
  - destruct (p c) eqn:Ec.
    + exists (c :: pre). simpl. rewrite Ec, F. split; [now f_equal|reflexivity].
    + now exists [].
Qed.

Lemma lstrip_by_idem (p : char -> bool) (s : str) :
  lstrip_by p (lstrip_by p s) = lstrip_by p s.
Proof.
  pose proof (lstrip_by_head p s) as H.
  destruct (lstrip_by p s) as [|c t]; [reflexivity|].
  now apply lstrip_by_fixed.
Qed.

Lemma rstrip_by_idem (p : char -> bool) (s : str) :
  rstrip_by p (rstrip_by p s) = rstrip_by p s.
Proof.
  unfold rstrip_by. now rewrite rev_involutive, lstrip_by_idem.
Qed.

(** Stripping on the right keeps a first character that is not stripped. *)
Lemma rstrip_by_keeps_head (p : char -> bool) (c : char) (s : str) :
  p c = false -> exists t, rstrip_by p (c :: s) = c :: t.
Proof.
  intros Hc. unfold rstrip_by. simpl rev.
  destruct (lstrip_by_suffix p (rev s ++ [c])) as [pre [E F]].
  remember (lstrip_by p (rev s ++ [c])) as w eqn:Ew.
  assert (Hw : exists w', w = w' ++ [c]).
  { destruct (rev w) as [|x w'] eqn:Erw.
    - apply (f_equal (@rev _)) in Erw. rewrite rev_involutive in Erw. simpl in Erw.
      subst w. rewrite Erw, app_nil_r in E.
      assert (In c pre) by (rewrite <- E; apply in_or_app; right; now left).
      rewrite forallb_forall in F. apply F in H. congruence.
    - apply (f_equal (@rev _)) in Erw. rewrite rev_involutive in Erw. simpl in Erw.
      exists (rev w'). rewrite Erw in E. rewrite app_assoc in E.
      apply app_inj_tail in E as [_ ->]. exact Erw. }
  destruct Hw as [w' ->]. rewrite rev_app_distr. simpl. now exists (rev w').
Qed.

Lemma strip_by_idem (p : char -> bool) (s : str) :
  strip_by p (strip_by p s) = strip_by p s.
Proof.
  unfold strip_by.
  pose proof (lstrip_by_head p s) as H.
  destruct (lstrip_by p s) as [|c t] eqn:E.
  - reflexivity.
  - destruct (rstrip_by_keeps_head p c t H) as [t' Et].
    rewrite Et. rewrite (lstrip_by_fixed p c t' H). rewrite <- Et.
    apply rstrip_by_idem.
Qed.

Lemma strip_idem (s : str) : strip (strip s) = strip s.
Proof. apply strip_by_idem. Qed.

Lemma srp_loop_acc (text : str) :
  forall (r : list str) (d : Z) (c : str),
    srp_loop text r d c
    = (r ++ fst (srp_loop text [] d c), snd (srp_loop text [] d c)).
Proof.
  induction text as [|ch rest IH]; intros r d c; simpl.
  - now rewrite app_nil_r.
  - destruct (N.eqb ch c_lparen); [apply IH|].
    destruct (N.eqb ch c_rparen); [apply IH|].
    destruct (N.eqb ch c_comma && Z.eqb d 0); [|apply IH].
    rewrite (IH (r ++ [strip c])), (IH ([] ++ [strip c])). simpl.
    now rewrite <- app_assoc.
Qed.

Lemma srp_loop_app (a b : str) :
  forall (r : list str) (d : Z) (c : str),
    srp_loop (a ++ b) r d c
    = srp_loop b (fst (srp_loop a r d c)) (d + depth_of a)%Z
               (snd (srp_loop a r d c)).
Proof.
  induction a as [|ch rest IH]; intros r d c; simpl.
  - now rewrite Z.add_0_r.
  - destruct (N.eqb ch c_lparen) eqn:El.
    { rewrite IH. f_equal. lia. }
    destruct (N.eqb ch c_rparen) eqn:Er.
    { rewrite IH. f_equal. lia. }
    destruct (N.eqb ch c_comma && Z.eqb d 0); rewrite IH; f_equal; lia.
Qed.

Lemma srp_loop_nested (s : str) :
  forall (r : list str) (d : Z) (c : str),
    commas_nested d s -> srp_loop s r d c = (r, c ++ s).
Proof.
  induction s as [|ch rest IH]; intros r d c H; simpl.
  - now rewrite app_nil_r.
  - destruct H as [Hc Hrest].
    destruct (N.eqb ch c_lparen) eqn:El.
    { rewrite IH by exact Hrest. now rewrite <- app_assoc. }
    destruct (N.eqb ch c_rparen) eqn:Er.
    { rewrite IH by exact Hrest. now rewrite <- app_assoc. }
    destruct (N.eqb ch c_comma) eqn:Ec; simpl.
    + specialize (Hc eq_refl). apply Z.eqb_neq in Hc. rewrite Hc.
      rewrite IH by exact Hrest. now rewrite <- app_assoc.
    + rewrite IH by exact Hrest. now rewrite <- app_assoc.
Qed.

Lemma split_nested (text : str) :
  commas_nested 0 text ->
  split_respecting_parens text = filter nonempty [strip text].
Proof.
  intros H. unfold split_respecting_parens.
  rewrite srp_loop_nested by exact H. simpl app.
  destruct text as [|c t]; reflexivity.
Qed.

Lemma split_at_top_comma (a b : str) :
  depth_of a = 0%Z ->
  split_respecting_parens (a ++ c_comma :: b)
  = split_respecting_parens a ++ split_respecting_parens b.
Proof.
  intros Ha. unfold split_respecting_parens.
  rewrite srp_loop_app, Ha. simpl.
  destruct (srp_loop a [] 0 []) as [ra ca] eqn:Ea. simpl.
  rewrite srp_loop_acc.
  destruct (srp_loop b [] 0 []) as [rb cb] eqn:Eb. simpl.
  assert (Hf : filter nonempty [strip ca]
               = filter nonempty (if nonempty ca then [strip ca] else [])).
  { destruct ca; reflexivity. }
  destruct (nonempty cb), (nonempty ca) eqn:Eca;
    repeat rewrite filter_app; repeat rewrite <- app_assoc;
    try rewrite Eca in Hf; try rewrite Hf; simpl; try rewrite app_nil_r; try reflexivity.
Qed.

Lemma split_entries_stripped (text e : str) :
  In e (split_respecting_parens text) -> e <> [] /\ strip e = e.
Proof.
  unfold split_respecting_parens.
  assert (G : forall t r d c,
             Forall (fun x => strip x = x) r ->
             Forall (fun x => strip x = x) (fst (srp_loop t r d c))).
  { induction t as [|ch rest IH]; intros r d c Hr; simpl; [exact Hr|].
    destruct (N.eqb ch c_lparen); [now apply IH|].
    destruct (N.eqb ch c_rparen); [now apply IH|].
    destruct (N.eqb ch c_comma && Z.eqb d 0); [|now apply IH].
    apply IH. apply Forall_app. split; [exact Hr|].
    constructor; [apply strip_idem|constructor]. }
  specialize (G text [] 0%Z [] (Forall_nil _)).
  destruct (srp_loop text [] 0 []) as [r c]. simpl in G.
  intros Hin. apply filter_In in Hin as [Hin Hne].
  split; [destruct e; [discriminate|congruence]|].
  assert (F : Forall (fun x => strip x = x)
                     (if nonempty c then r ++ [strip c] else r)).
  { destruct (nonempty c); [|exact G].
    apply Forall_app. split; [exact G|]. constructor; [apply strip_idem|constructor]. }
  rewrite Forall_forall in F. now apply F.
Qed.

(** ** The matcher against the declarative reading *)


Section MatcherFacts.
Variable R : Type.
Variable whole : str.






End MatcherFacts.



(** ** Shape of the matches of the trailing-parenthetical patterns *)

















(** ** The rating that [make_trait] reads *)





Section GreedyTotal.
Variable R : Type.

End GreedyTotal.










(** ** The records the builders return *)









Lemma make_skill_specs_items (base : str) (adv : Z) :
  forall specs ctr item,
    In item (fst (make_skill_specs base adv specs ctr)) ->
    item_type item = u "skill"
    /\ system_field item (u "linkedCharacteristic")
       = Some (JStr (table_get SKILL_CHARS base (u "int"))).
Proof.
  induction specs as [|spec rest IH]; intros ctr item; cbn [make_skill_specs].
  - intros [].
  - destruct (next_id ctr) as [id c1].
    destruct (make_skill_specs base adv rest c1) as [items c2] eqn:E.
    cbn [fst In]. intros [<- | H]; [split; reflexivity|].
    apply (IH c1). now rewrite E.
Qed.



Lemma make_skill_items (entry : str) (ctr : N) (item : json) :
  In item (fst (make_skill entry ctr)) ->
  item_type item = u "skill"
  /\ system_field item (u "linkedCharacteristic")
     = Some (JStr (table_get SKILL_CHARS (skill_base_name entry) (u "int"))).
Proof.
  unfold make_skill, skill_base_name, skill_name.
  destruct (skill_advancement (rstrip_dot (strip entry))) as [adv name]. simpl snd.
  destruct (re_match paren_re name) as [m|].
  - destruct (existsb _ _).
    + apply make_skill_specs_items.
    + destruct (next_id ctr) as [id c1]. cbn [fst In].
      intros [<- | []]. split; reflexivity.
  - destruct (next_id ctr) as [id c1]. cbn [fst In].
    intros [<- | []]. split; reflexivity.
Qed.





(** ** The special-abilities loop and the items [process_actor] derives *)




(** *** Dictionaries *)

Section DictFacts.
Variable V : Type.

Lemma dict_get_set_same (d : adict V) (k : str) (v : V) :
  dict_get (dict_set d k v) k = Some v.
Proof.
  induction d as [|[k' v'] d IH]; simpl.
  - now rewrite str_eqb_refl.
  - destruct (str_eqb k' k) eqn:E; simpl; rewrite E; [reflexivity|exact IH].
Qed.

Lemma dict_get_set_other (d : adict V) (k k' : str) (v : V) :
  k <> k' -> dict_get (dict_set d k v) k' = dict_get d k'.
Proof.
  intros N. induction d as [|[k0 v0] d IH]; simpl.
  - apply str_eqb_neq in N. now rewrite N.
  - destruct (str_eqb k0 k) eqn:E; simpl.
    + apply str_eqb_eq in E. subst k0. apply str_eqb_neq in N. now rewrite N.
    + destruct (str_eqb k0 k'); [reflexivity|exact IH].
Qed.

Lemma dict_has_set (d : adict V) (k k' : str) (v : V) :
  dict_has (dict_set d k v) k' = str_eqb k k' || dict_has d k'.
Proof.
  unfold dict_has. destruct (str_eqb k k') eqn:E.
  - apply str_eqb_eq in E. subst k'. now rewrite dict_get_set_same.
  - apply str_eqb_neq in E. now rewrite dict_get_set_other.
Qed.

Lemma setdefault_present (d : adict V) (k : str) (v : V) :
  dict_has d k = true -> setdefault d k v = d.
Proof. unfold setdefault. now intros ->. Qed.

Lemma dict_has_setdefault (d : adict V) (k k' : str) (v : V) :
  dict_has (setdefault d k v) k' = str_eqb k k' || dict_has d k'.
Proof.
  unfold setdefault. destruct (dict_has d k) eqn:E.
  - destruct (str_eqb k k') eqn:E'; [|reflexivity].
    apply str_eqb_eq in E'. now subst k'.
  - apply dict_has_set.
Qed.

Lemma dict_get_setdefault_other (d : adict V) (k k' : str) (v : V) :
  k <> k' -> dict_get (setdefault d k v) k' = dict_get d k'.
Proof.
  intros N. unfold setdefault. destruct (dict_has d k); [reflexivity|].
  now apply dict_get_set_other.
Qed.
End DictFacts.

(** *** What [process_actor] keeps and what it adds *)

Lemma keeps_item_spec (i : json) (b : bool) :
  keeps_item i = Ok b -> b = negb (is_regenerated i).
Proof.
  unfold keeps_item, py_get, as_dict, is_regenerated.
  destruct i as [| | | | |d]; simpl; try discriminate.
  destruct (dict_get_or d (u "type") JNull); intros [= <-]; reflexivity.
Qed.

Lemma filter_items_spec :
  forall items kept,
    filter_items items = Ok kept ->
    kept = filter (fun i => negb (is_regenerated i)) items.
Proof.
  induction items as [|i rest IH]; intros kept; cbn [filter_items filter].
  - now intros [= <-].
  - destruct (keeps_item i) as [b|] eqn:K; [|discriminate].
    apply keeps_item_spec in K. cbn [bind].
    destruct (filter_items rest) as [kept'|]; [|discriminate].
    cbn [bind]. intros [= <-]. rewrite <- K, (IH kept' eq_refl).
    now destruct b.
Qed.

(** An iteration over the embedded items in which every [.get] succeeds
    runs over a list of items. *)
Lemma py_iter_items (d : dict) (old kept : list json) :
  py_iter (dict_get_or d (u "items") (JList [])) = Ok old ->
  filter_items old = Ok kept ->
  old = items_of (JDict d).
Proof.
  unfold items_of, dict_get_or.
  destruct (dict_get d (u "items")) as [[| | |s|l|d']|]; simpl; try discriminate.
  - destruct s as [|c s]; intros [= <-]; [reflexivity|discriminate].
  - now intros [= <-].
  - destruct d' as [|[k v] d']; intros [= <-]; [reflexivity|discriminate].
  - now intros [= <-].
Qed.

Lemma skills_loop_regenerated :
  forall entries ctr item,
    In item (fst (skills_loop entries ctr)) -> is_regenerated item = true.
Proof.
  induction entries as [|entry rest IH]; intros ctr item; cbn [skills_loop].
  - intros [].
  - pose proof (make_skill_items entry ctr) as F.
    destruct (make_skill entry ctr) as [items c1].
    destruct (skills_loop rest c1) as [more c2] eqn:E.
    cbn [fst] in *. intros H. apply in_app_or in H as [H|H].
    + apply F in H as [H _]. unfold item_type, field_str in H.
      unfold is_regenerated. destruct item as [| | | | |d]; try discriminate.
      unfold dict_get_or. destruct (dict_get d (u "type")) as [[| | |s| |]|];
        try discriminate. now subst s.
    + apply (IH c1). now rewrite E.
Qed.

Lemma talents_loop_regenerated :
  forall entries ctr item,
    In item (fst (talents_loop entries ctr)) -> is_regenerated item = true.
Proof.
  induction entries as [|entry rest IH]; intros ctr item; cbn [talents_loop].
  - intros [].
  - unfold make_talent at 1. destruct (next_id ctr) as [id c1].
    destruct (talents_loop rest c1) as [more c2] eqn:E.
    cbn [fst In]. intros [<- | H]; [reflexivity|].
    apply (IH c1). now rewrite E.
Qed.

Lemma make_trait_regenerated (entry description : str) (ctr : N) :
  is_regenerated (fst (make_trait entry description ctr)) = true.
Proof.
  unfold make_trait. destruct (trait_parse _) as [[hr r] cat].
  now destruct (next_id ctr).
Qed.

Lemma traits_loop_regenerated :
  forall entries ctr item,
    In item (fst (traits_loop entries ctr)) -> is_regenerated item = true.
Proof.
  induction entries as [|entry rest IH]; intros ctr item; cbn [traits_loop].
  - intros [].
  - pose proof (make_trait_regenerated entry [] ctr) as F.
    destruct (make_trait entry [] ctr) as [it c1].
    destruct (traits_loop rest c1) as [more c2] eqn:E.
    cbn [fst In] in *. intros [<- | H]; [exact F|].
    apply (IH c1). now rewrite E.
Qed.

Lemma specials_loop_regenerated :
  forall abilities acc ctr,
    Forall (fun i => is_regenerated i = true) acc ->
    Forall (fun i => is_regenerated i = true) (fst (specials_loop abilities acc ctr)).
Proof.
  induction abilities as [|[n d] rest IH]; intros acc ctr H; cbn [specials_loop].
  - exact H.
  - destruct (already_trait acc n); [now apply IH|].
    pose proof (make_trait_regenerated n d ctr) as F.
    destruct (make_trait n d ctr) as [it c1]. cbn [fst] in F.
    apply IH. apply Forall_app. split; [exact H|]. now constructor.
Qed.

Lemma powers_loop_regenerated (lower : str -> str) :
  forall powers ctr item,
    In item (fst (powers_loop lower powers ctr)) -> is_regenerated item = true.
Proof.
  induction powers as [|[n d] rest IH]; intros ctr item; cbn [powers_loop].
  - intros [].
  - unfold make_power at 1. destruct (next_id ctr) as [id c1].
    destruct (powers_loop lower rest c1) as [more c2] eqn:E.
    cbn [fst In]. intros [<- | H]; [reflexivity|].
    apply (IH c1). now rewrite E.
Qed.

Lemma derive_items_regenerated (lower : str -> str) (notes : str) (ctr : N) :
  Forall (fun i => is_regenerated i = true) (fst (derive_items lower notes ctr)).
Proof.
  unfold derive_items.
  pose proof (skills_loop_regenerated (extract_section notes (u "SKILLS")) ctr) as S.
  destruct (skills_loop _ ctr) as [skills c1].
  pose proof (talents_loop_regenerated (extract_section notes (u "TALENTS")) c1) as T.
  destruct (talents_loop _ c1) as [talents c2].
  pose proof (traits_loop_regenerated (extract_section notes (u "TRAITS")) c2) as R.
  destruct (traits_loop _ c2) as [traits c3].
  pose proof (specials_loop_regenerated (extract_special_abilities notes)
                (skills ++ talents ++ traits) c3) as P.
  destruct (specials_loop _ _ c3) as [ws c4].
  pose proof (powers_loop_regenerated lower (extract_psychic_powers notes) c4) as W.
  destruct (powers_loop lower _ c4) as [powers c5].
  cbn [fst] in *. apply Forall_app. split.
  - apply P. rewrite !Forall_app. repeat split; apply Forall_forall; assumption.
  - apply Forall_forall. exact W.
Qed.

Lemma filter_negb_filter {A : Type} (p : A -> bool) (l : list A) :
  filter p (filter (fun x => negb (p x)) l) = [].
Proof.
  induction l as [|x l IH]; simpl; [reflexivity|].
  destruct (p x) eqn:E; simpl; [exact IH|now rewrite E].
Qed.

Lemma filter_all {A : Type} (p : A -> bool) (l : list A) :
  Forall (fun x => p x = true) l -> filter p l = l.
Proof.
  induction 1 as [|x l Hx _ IH]; simpl; [reflexivity|]. now rewrite Hx, IH.
Qed.

Lemma derive_items_empty_notes (lower : str -> str) (ctr : N) :
  fst (derive_items lower [] ctr) = [].
Proof. reflexivity. Qed.

Lemma items_of_set_other (d : dict) (k : str) (v : json) :
  k <> u "items" -> items_of (JDict (dict_set d k v)) = items_of (JDict d).
Proof.
  intros N. unfold items_of. now rewrite dict_get_set_other.
Qed.

(** ** [refactor_weapon] *)

Lemma fill_defaults_get_other (defaults : list (str * json)) (k : str) :
  (forall kv, In kv defaults -> fst kv <> k) ->
  forall d, dict_get (fill_defaults defaults d) k = dict_get d k.
Proof.
  unfold fill_defaults.
  induction defaults as [|[k0 v0] rest IH]; intros H d; simpl; [reflexivity|].
  rewrite IH by (intros kv Hk; apply H; now right).
  apply dict_get_setdefault_other. apply (H (k0, v0)). now left.
Qed.

Lemma fill_defaults_has_mono (defaults : list (str * json)) (k : str) :
  forall d, dict_has d k = true -> dict_has (fill_defaults defaults d) k = true.
Proof.
  unfold fill_defaults.
  induction defaults as [|[k0 v0] rest IH]; intros d H; simpl; [exact H|].
  apply IH. rewrite dict_has_setdefault, H. apply orb_true_r.
Qed.

Lemma fill_defaults_has (defaults : list (str * json)) :
  forall d kv, In kv defaults -> dict_has (fill_defaults defaults d) (fst kv) = true.
Proof.
  unfold fill_defaults.
  induction defaults as [|[k0 v0] rest IH]; intros d kv; simpl; [easy|].
  intros [<- | H]; [|now apply IH].
  apply (fill_defaults_has_mono rest). simpl.
  rewrite dict_has_setdefault, str_eqb_refl. reflexivity.
Qed.

Lemma fill_defaults_present (defaults : list (str * json)) :
  forall d, (forall kv, In kv defaults -> dict_has d (fst kv) = true) ->
            fill_defaults defaults d = d.
Proof.
  unfold fill_defaults.
  induction defaults as [|[k0 v0] rest IH]; intros d H; simpl; [reflexivity|].
  rewrite setdefault_present by (apply (H (k0, v0)); now left).
  apply IH. intros kv Hk. apply H. now right.
Qed.

Lemma dict_get_del_other {V : Type} (d : adict V) (k k' : str) :
  k <> k' -> dict_get (dict_del d k) k' = dict_get d k'.
Proof.
  intros N. induction d as [|[k0 v0] d IH]; simpl; [reflexivity|].
  destruct (str_eqb k0 k) eqn:E; simpl.
  - apply str_eqb_eq in E. subst k0. apply str_eqb_neq in N. now rewrite N.
  - destruct (str_eqb k0 k'); [reflexivity|exact IH].
Qed.

Lemma is_str_eq (j : json) (s : str) : is_str j s = true -> j = JStr s.
Proof.
  destruct j; simpl; try discriminate. intros H. apply str_eqb_eq in H. now subst.
Qed.

Lemma rename_clip_get_other (d : dict) (k : str) :
  k <> u "clip" -> k <> u "magazine" ->
  dict_get (rename_clip d) k = dict_get d k.
Proof.
  intros N1 N2. unfold rename_clip.
  destruct (dict_get d (u "clip")); [|reflexivity].
  destruct (dict_has d (u "magazine")); [reflexivity|].
  rewrite dict_get_set_other by congruence.
  apply dict_get_del_other. congruence.
Qed.

Lemma rename_clip_done (d : dict) :
  dict_has d (u "magazine") = true -> rename_clip d = d.
Proof.
  intros H. unfold rename_clip. rewrite H. now destruct (dict_get d (u "clip")).
Qed.

Lemma refactor_weapon_unfold (d : dict) :
  refactor_weapon (JDict d)
  = (let d2 := fill_defaults weapon_defaults (rename_clip d) in
     d3 <- (if dict_has d2 (u "loadType") then Ok d2
            else lt <- infer_load_type d2 ;; Ok (dict_set d2 (u "loadType") lt)) ;;
     Ok (JDict (fix_melee_rof d3))).
Proof. reflexivity. Qed.

Lemma fix_melee_rof_has (d : dict) (k : str) :
  dict_has d k = true -> dict_has (fix_melee_rof d) k = true.
Proof.
  intros H. unfold fix_melee_rof.
  destruct (is_str _ _); [|exact H].
  destruct (dict_get d (u "rof")) as [[| | | | |rof]|]; try exact H.
  destruct (negb _); [|exact H].
  rewrite dict_has_set, H. apply orb_true_r.
Qed.

Lemma weapon_defaults_keys (kv : str * json) :
  In kv weapon_defaults ->
  fst kv <> u "class" /\ fst kv <> u "rof" /\ fst kv <> u "loadType".
Proof.
  unfold weapon_defaults. simpl.
  intros H. repeat destruct H as [<- | H]; try contradiction;
    (repeat split; vm_compute; discriminate).
Qed.

Lemma infer_load_type_melee (d : dict) :
  dict_get d (u "class") = Some (JStr (u "melee")) ->
  infer_load_type d = Ok (JStr []).
Proof.
  intros H. unfold infer_load_type, dict_get_or. rewrite H. reflexivity.
Qed.

(** What [refactor_weapon] does to a melee weapon whose [rof] is a
    dictionary. *)
Lemma refactor_melee (d rof : dict) :
  is_str (dict_get_or d (u "class") JNull) (u "melee") = true ->
  dict_get d (u "rof") = Some (JDict rof) ->
  exists d',
    refactor_weapon (JDict d) = Ok (JDict d')
    /\ dict_get d' (u "class") = dict_get d (u "class")
    /\ dict_get d' (u "rof")
       = Some (JDict (if truthy (dict_get_or rof (u "single") JNull) then rof
                      else dict_set rof (u "single") (JBool true)))
    /\ (forall kv, In kv weapon_defaults -> dict_has d' (fst kv) = true)
    /\ dict_has d' (u "loadType") = true.
Proof.
  intros Hc Hr. rewrite refactor_weapon_unfold. cbv zeta.
  set (d2 := fill_defaults weapon_defaults (rename_clip d)).
  assert (G : forall k, k <> u "clip" -> k <> u "magazine" ->
                        (forall kv, In kv weapon_defaults -> fst kv <> k) ->
                        dict_get d2 k = dict_get d k).
  { intros k N1 N2 N3. unfold d2.
    rewrite fill_defaults_get_other by exact N3.
    now apply rename_clip_get_other. }
  assert (Gc : dict_get d2 (u "class") = dict_get d (u "class")).
  { apply G; try (vm_compute; discriminate).
    intros kv H. now apply weapon_defaults_keys in H. }
  assert (Gr : dict_get d2 (u "rof") = dict_get d (u "rof")).
  { apply G; try (vm_compute; discriminate).
    intros kv H. now apply weapon_defaults_keys in H. }
  assert (Gh : forall kv, In kv weapon_defaults -> dict_has d2 (fst kv) = true).
  { intros kv H. now apply fill_defaults_has. }
  assert (Hd3 : exists d3,
             (if dict_has d2 (u "loadType") then Ok d2
              else lt <- infer_load_type d2 ;; Ok (dict_set d2 (u "loadType") lt))
             = Ok d3
             /\ dict_get d3 (u "class") = dict_get d (u "class")
             /\ dict_get d3 (u "rof") = dict_get d (u "rof")
             /\ (forall kv, In kv weapon_defaults -> dict_has d3 (fst kv) = true)
             /\ dict_has d3 (u "loadType") = true).
  { destruct (dict_has d2 (u "loadType")) eqn:L.
    - exists d2. auto.
    - unfold dict_get_or in Hc. destruct (dict_get d (u "class")) as [cl|];
        [|discriminate].
      apply is_str_eq in Hc. subst cl.
      rewrite (infer_load_type_melee d2 Gc). cbn [bind].
      exists (dict_set d2 (u "loadType") (JStr [])). split; [reflexivity|].
      rewrite !dict_get_set_other by (vm_compute; discriminate).
      repeat split; try assumption.
      + intros kv H. rewrite dict_has_set, (Gh kv H). apply orb_true_r.
      + rewrite dict_has_set, str_eqb_refl. reflexivity. }
  destruct Hd3 as (d3 & -> & Hc3 & Hr3 & Hh3 & Hl3). cbn [bind].
  exists (fix_melee_rof d3). split; [reflexivity|].
  unfold fix_melee_rof at 1 2. unfold dict_get_or at 1 3. rewrite Hc3.
  unfold dict_get_or in Hc. destruct (dict_get d (u "class")) as [cl|];
    [|discriminate].
  rewrite Hc, Hr3, Hr.
  destruct (truthy (dict_get_or rof (u "single") JNull)) eqn:T; cbn [negb].
  - rewrite Hc3, Hr3, Hr. repeat split; try assumption.
    + intros kv H. apply fix_melee_rof_has. now apply Hh3.
    + now apply fix_melee_rof_has.
  - rewrite dict_get_set_other by (vm_compute; discriminate).
    rewrite dict_get_set_same. repeat split; try assumption.
    + intros kv H. apply fix_melee_rof_has. now apply Hh3.
    + now apply fix_melee_rof_has.
Qed.

Lemma fix_melee_rof_idem (d : dict) :
  fix_melee_rof (fix_melee_rof d) = fix_melee_rof d.
Proof.
  destruct (is_str (dict_get_or d (u "class") JNull) (u "melee")) eqn:C.
  2:{ assert (E : fix_melee_rof d = d) by (unfold fix_melee_rof; now rewrite C).
      now rewrite !E. }
  destruct (dict_get d (u "rof")) as [[| | | | |rof]|] eqn:R;
    try (assert (E : fix_melee_rof d = d)
          by (unfold fix_melee_rof; now rewrite C, R);
         now rewrite !E).
  destruct (truthy (dict_get_or rof (u "single") JNull)) eqn:T.
  - assert (E : fix_melee_rof d = d)
      by (unfold fix_melee_rof; now rewrite C, R, T).
    now rewrite !E.
  - assert (E : fix_melee_rof d
                = dict_set d (u "rof")
                           (JDict (dict_set rof (u "single") (JBool true))))
      by (unfold fix_melee_rof; now rewrite C, R, T).
    rewrite E. unfold fix_melee_rof, dict_get_or.
    rewrite dict_get_set_other by (vm_compute; discriminate).
    unfold dict_get_or in C. rewrite C.
    rewrite !dict_get_set_same. reflexivity.
Qed.

(** A weapon that has every defaulted field and a load type, and whose
    melee fix is done, is left as it is. *)
Lemma refactor_weapon_fixed (d : dict) :
  (forall kv, In kv weapon_defaults -> dict_has d (fst kv) = true) ->
  dict_has d (u "loadType") = true ->
  fix_melee_rof d = d ->
  refactor_weapon (JDict d) = Ok (JDict d).
Proof.
  intros Hh Hl Hf. rewrite refactor_weapon_unfold. cbv zeta.
  rewrite rename_clip_done
    by (apply (Hh (u "magazine", JDict [(u "value", JInt 0); (u "max", JInt 0)]));
        now left).
  rewrite fill_defaults_present by exact Hh.
  rewrite Hl. cbn [bind]. now rewrite Hf.
Qed.

Lemma refactor_weapon_idempotent (sys sys' : json) :
  refactor_weapon sys = Ok sys' -> refactor_weapon sys' = Ok sys'.
Proof.
  destruct sys as [| | | | |d]; try discriminate.
  rewrite refactor_weapon_unfold. cbv zeta.
  set (d2 := fill_defaults weapon_defaults (rename_clip d)).
  assert (Gh : forall kv, In kv weapon_defaults -> dict_has d2 (fst kv) = true)
    by (intros kv H; now apply fill_defaults_has).
  destruct (dict_has d2 (u "loadType")) eqn:L.
  - cbn [bind]. intros [= <-]. apply refactor_weapon_fixed.
    + intros kv H. now apply fix_melee_rof_has, Gh.
    + now apply fix_melee_rof_has.
    + apply fix_melee_rof_idem.
  - destruct (infer_load_type d2) as [lt|]; [|discriminate].
    cbn [bind]. intros [= <-]. apply refactor_weapon_fixed.
    + intros kv H. apply fix_melee_rof_has.
      rewrite dict_has_set, (Gh kv H). apply orb_true_r.
    + apply fix_melee_rof_has. rewrite dict_has_set, str_eqb_refl. reflexivity.
    + apply fix_melee_rof_idem.
Qed.

(** ** The derived rules *)

Lemma rules_value_placeholder (lower : str -> str) (name : str) (rating : json) :
  Forall (fun rule => rule_value rule = None
                      \/ rule_value rule = Some (JStr (u "rating")))
         (fst (get_trait_rules_and_immunities lower name rating)).
Proof.
  unfold get_trait_rules_and_immunities.
  repeat match goal with
         | |- context [if ?b then _ else _] => destruct b
         end;
    cbn [fst];
    repeat (apply Forall_cons; [first [left; reflexivity | right; reflexivity]|]);
    apply Forall_nil.
Qed.

(* ================================================================== *)
(** * The claims *)

(** C1 (idempotence of the migration, [fix_actor]): the claim fails on
    the code.  On the legacy actor [ghoul] the first run of [fix_actor]
    gives [ghoul_fixed]; the second run, applied to that result, gives
    [ghoul_fixed_twice], which differs: the armour is reset to zero at
    every location, the role is emptied and the notes are cut down to the
    description. *)
Theorem fix_actor_second_run :
  forall (lower : str -> str) (repr : json -> str),
    fix_actor lower repr ghoul = Ok ghoul_fixed
    /\ fix_actor lower repr ghoul_fixed = Ok ghoul_fixed_twice
    /\ ghoul_fixed <> ghoul_fixed_twice.
Proof.
  intros lower repr. repeat split; try (vm_compute; reflexivity).
  vm_compute. discriminate.
Qed.

(** C2, the claim as stated fails: with notes that yield no record,
    [process_actor] leaves the three trait records of [thrall] in place
    (the replacement is guarded by [if new_items:]). *)
Lemma regenerate_nothing_derived :
  exists current',
    process_actor ascii_lower plain_repr thrall
                  (thrall_original (u "Keeps to the crypt.")) 0
    = Ok (current', 0, 0%N)
    /\ items_of current' = items_of thrall
    /\ length (filter is_trait (items_of current')) = 3.
Proof. eexists. repeat split; vm_compute; reflexivity. Qed.

(** C2 (regenerate-then-replace, amended): when [process_actor] returns
    and the notes yield at least one record, the items of the actor are its
    former items of the other kinds followed by the new records, so the
    records of the regenerated kinds (skill, talent, trait, power) are
    exactly the new ones and the count returned is their number; when the
    notes yield no record, the items are left as they were. *)
Theorem regenerate_then_replace :
  forall (lower : str -> str) (repr : json -> str)
         (current original : json) (ctr : N)
         (current' : json) (n : nat) (ctr' : N) (notes : str),
    process_actor lower repr current original ctr = Ok (current', n, ctr') ->
    notes_of original = Ok (JStr notes) ->
    let new_items := fst (derive_items lower notes ctr) in
    (new_items <> [] ->
     items_of current'
     = filter (fun i => negb (is_regenerated i)) (items_of current) ++ new_items
     /\ filter is_regenerated (items_of current') = new_items
     /\ n = length new_items)
    /\ (new_items = [] -> items_of current' = items_of current /\ n = 0).
Proof.
  intros lower repr current original ctr current' n ctr' notes P Hn new_items.
  unfold process_actor in P. unfold notes_of in Hn.
  destruct (py_get original (u "system") (JDict [])) as [osys|]; [|discriminate].
  cbn [bind] in P, Hn. rewrite Hn in P. cbn [bind] in P.
  destruct current as [| | | | |cur]; try discriminate. cbn [as_dict bind] in P.
  destruct (truthy (JStr notes)) eqn:T; cbn [negb] in P.
  2:{ injection P as <- <- <-.
      assert (notes = []) as -> by (destruct notes; [reflexivity|discriminate]).
      subst new_items. rewrite derive_items_empty_notes.
      split; [congruence|auto]. }
  destruct (build_notes repr original) as [full_notes|]; [|discriminate].
  cbn [bind] in P.
  destruct (py_index (JDict cur) (u "system")) as [csys|]; [|discriminate].
  cbn [bind] in P.
  destruct (as_dict csys) as [sysd|]; [|discriminate]. cbn [bind] in P.
  destruct (py_index csys (u "details")) as [cdet|]; [|discriminate].
  cbn [bind] in P.
  destruct (as_dict cdet) as [detd|]; [|discriminate]. cbn [bind as_str] in P.
  set (cur1 := dict_set cur (u "system") _) in P.
  assert (I1 : items_of (JDict cur1) = items_of (JDict cur)).
  { apply items_of_set_other. vm_compute. discriminate. }
  subst new_items.
  pose proof (derive_items_regenerated lower notes ctr) as D.
  destruct (derive_items lower notes ctr) as [[|it rest] c1]; cbn [fst] in *.
  - injection P as <- <- <-. split; [congruence|]. intros _. now split.
  - destruct (py_iter _) as [old|] eqn:Io; [|discriminate]. cbn [bind] in P.
    destruct (filter_items old) as [kept|] eqn:F; [|discriminate].
    cbn [bind] in P. injection P as <- <- <-.
    pose proof (py_iter_items cur1 old kept Io F) as Eo.
    apply filter_items_spec in F. rewrite Eo, I1 in F.
    split; [|discriminate]. intros _.
    assert (I2 : items_of (JDict (dict_set cur1 (u "items") (JList (kept ++ it :: rest))))
                 = kept ++ it :: rest).
    { unfold items_of. now rewrite dict_get_set_same. }
    rewrite I2. split; [now rewrite F|]. split; [|reflexivity].
    rewrite filter_app, F, filter_negb_filter. cbn [app].
    apply filter_all. exact D.
Qed.

(** C2, the example of the claim: an actor with three trait records,
    processed with notes that yield two, holds two trait records. *)
Lemma regenerate_then_replace_witness :
  length (filter is_trait (items_of thrall)) = 3
  /\ exists current',
      process_actor ascii_lower plain_repr thrall
                    (thrall_original (u "TRAITS: Fear (2), Undying")) 0
      = Ok (current', 2, 2%N)
      /\ length (filter is_trait (items_of current')) = 2
      /\ filter is_regenerated (items_of current')
         = fst (derive_items ascii_lower (u "TRAITS: Fear (2), Undying") 0).
Proof.
  split; [reflexivity|].
  eexists. split; [vm_compute; reflexivity|].
  split; [vm_compute; reflexivity|].
  refine (proj1 (proj2 (proj1
    (regenerate_then_replace ascii_lower plain_repr thrall
       (thrall_original (u "TRAITS: Fear (2), Undying")) 0 _ 2 2%N
       (u "TRAITS: Fear (2), Undying") _ eq_refl) _))).
  - vm_compute. reflexivity.
  - vm_compute. discriminate.
Defined.



(** C4, the claim as stated fails: an embedded armour item takes
    precedence, so the legacy value 3 of [plated] is not spread over the
    locations. *)
Lemma fix_actor_armour_prefers_item :
  fix_actor_armour plated = Ok (locations_of [(u "head", JInt 5)])
  /\ locations_of [(u "head", JInt 5)] <> uniform_armour (JInt 3).
Proof. split; [vm_compute; reflexivity|vm_compute; discriminate]. Qed.

(** C4 (armour restructure, amended): for an actor whose items are a
    list, [fix_actor_armour] returns, when no item is an armour item and
    the actor's armour is a dictionary with a [value] X, the mapping with X
    at every location; and when there is an armour item, the six locations
    read from the [ap] (else [locations]) dictionary of the first one, 0
    where it has none. *)
Theorem fix_actor_armour_cases :
  forall (a : dict) (items : list json),
    dict_get_or a (u "items") (JList []) = JList items ->
    (forall (sys old : dict) (X : json),
        find is_armour_item items = None ->
        dict_get_or a (u "system") (JDict []) = JDict sys ->
        dict_get_or sys (u "armour") (JDict []) = JDict old ->
        dict_get old (u "value") = Some X ->
        fix_actor_armour (JDict a) = Ok (uniform_armour X))
    /\ (forall (item : json) (isys locs : dict),
           find is_armour_item items = Some item ->
           py_get item (u "system") (JDict []) = Ok (JDict isys) ->
           dict_get_or isys (u "ap") (dict_get_or isys (u "locations") (JDict []))
           = JDict locs ->
           fix_actor_armour (JDict a) = Ok (locations_of locs)).
Proof.
  intros a items Hi. split.
  - intros sys old X Hf Hs Ho Hv. unfold fix_actor_armour, py_get.
    cbn [as_dict bind]. rewrite Hi. cbn [py_iter bind]. rewrite Hf, Hs.
    cbn [as_dict bind]. rewrite Ho, Hv. reflexivity.
  - intros item isys locs Hf Hs Hl. unfold fix_actor_armour.
    unfold py_get at 1. cbn [as_dict bind]. rewrite Hi. cbn [py_iter bind].
    rewrite Hf, Hs. cbn [bind]. unfold py_get. cbn [as_dict bind].
    rewrite Hl. reflexivity.
Qed.

(** C4, an instance: the legacy armour of [ghoul], who carries no item. *)
Lemma fix_actor_armour_cases_witness :
  fix_actor_armour ghoul = Ok (uniform_armour (JInt 3)).
Proof.
  unfold ghoul.
  match goal with
  | |- fix_actor_armour (JDict ?a) = _ =>
    destruct (fix_actor_armour_cases a [] eq_refl) as [H _];
    eapply H; reflexivity
  end.
Defined.




(** C6 (tokenizer nesting): the example splits into its two entries, the
    first with its inner comma; a comma in front of which the depth is zero
    splits the text; a text all of whose commas are nested is one entry,
    stripped, or none if that is empty; and no entry returned is empty or
    has white space at either end. *)
Theorem split_respecting_parens_nesting :
  split_respecting_parens
    (u "Forbidden Lore (Warp, Daemonology), Scholastic Lore (Occult) +10")
  = [u "Forbidden Lore (Warp, Daemonology)"; u "Scholastic Lore (Occult) +10"]
  /\ (forall a b, depth_of a = 0%Z ->
                  split_respecting_parens (a ++ c_comma :: b)
                  = split_respecting_parens a ++ split_respecting_parens b)
  /\ (forall text, commas_nested 0 text ->
                   split_respecting_parens text = filter nonempty [strip text])
  /\ (forall text e, In e (split_respecting_parens text) ->
                     e <> [] /\ strip e = e).
Proof.
  split; [vm_compute; reflexivity|].
  split; [exact split_at_top_comma|].
  split; [exact split_nested|exact split_entries_stripped].
Qed.

(** C6, an instance: the comma behind a closed parenthetical splits. *)
Lemma split_respecting_parens_nesting_witness :
  split_respecting_parens (u "Fear (1, 2), Size (Hulking)")
  = split_respecting_parens (u "Fear (1, 2)")
    ++ split_respecting_parens (u " Size (Hulking)").
Proof.
  exact (proj1 (proj2 split_respecting_parens_nesting)
               (u "Fear (1, 2)") (u " Size (Hulking)") eq_refl).
Defined.





(** C9 (the rating argument is not used): the rules and immunities
    returned for a trait name are the same for any two values of the
    rating argument; and a rule that has a [value] has the placeholder
    string "rating" there, never a number. *)
Theorem rules_independent_of_rating :
  forall (lower : str -> str) (name : str) (r1 r2 : json),
    get_trait_rules_and_immunities lower name r1
    = get_trait_rules_and_immunities lower name r2
    /\ Forall (fun rule => rule_value rule = None
                           \/ rule_value rule = Some (JStr (u "rating")))
              (fst (get_trait_rules_and_immunities lower name r1)).
Proof.
  intros lower name r1 r2. split.
  - reflexivity.
  - apply rules_value_placeholder.
Qed.

(** C10, the claim as stated fails: a [single] that is already truthy
    is left alone, here the string "S", which is not [true]. *)
Lemma melee_single_not_true :
  exists d' rof',
    refactor_weapon rusty_blade = Ok (JDict d')
    /\ dict_get d' (u "rof") = Some (JDict rof')
    /\ dict_get rof' (u "single") = Some (JStr (u "S")).
Proof. eexists. eexists. repeat split; vm_compute; reflexivity. Qed.

(** C10 (melee weapons fire single, amended): [refactor_weapon] returns
    on every weapon of class "melee" whose [rof] is a dictionary; in the
    result the [rof] is a dictionary with a truthy [single], which is
    [true] when the former value was missing or falsy, the [rof] being
    untouched otherwise; and applying [refactor_weapon] to the result
    changes nothing. *)
Theorem melee_single_fire (d rof : dict) :
  is_str (dict_get_or d (u "class") JNull) (u "melee") = true ->
  dict_get d (u "rof") = Some (JDict rof) ->
  exists d' rof',
    refactor_weapon (JDict d) = Ok (JDict d')
    /\ dict_get d' (u "rof") = Some (JDict rof')
    /\ truthy (dict_get_or rof' (u "single") JNull) = true
    /\ (truthy (dict_get_or rof (u "single") JNull) = false ->
        dict_get rof' (u "single") = Some (JBool true))
    /\ (truthy (dict_get_or rof (u "single") JNull) = true -> rof' = rof)
    /\ refactor_weapon (JDict d') = Ok (JDict d').
Proof.
  intros Hc Hr.
  destruct (refactor_melee d rof Hc Hr) as (d' & E & _ & R & _).
  exists d'. eexists. split; [exact E|]. split; [exact R|].
  destruct (truthy (dict_get_or rof (u "single") JNull)) eqn:T.
  - split; [exact T|]. split; [discriminate|]. split; [reflexivity|].
    now apply refactor_weapon_idempotent in E.
  - unfold dict_get_or. rewrite dict_get_set_same.
    split; [reflexivity|]. split; [reflexivity|]. split; [discriminate|].
    now apply refactor_weapon_idempotent in E.
Qed.

(** C10, an instance: a club with [single] false. *)
Lemma melee_single_fire_witness :
  exists d' rof',
    refactor_weapon
      (JDict [ (u "class", JStr (u "melee"));
               (u "rof", JDict [(u "single", JBool false)]) ])
    = Ok (JDict d')
    /\ dict_get d' (u "rof") = Some (JDict rof')
    /\ dict_get rof' (u "single") = Some (JBool true).
Proof.
  destruct (melee_single_fire
              [ (u "class", JStr (u "melee"));
                (u "rof", JDict [(u "single", JBool false)]) ]
              [(u "single", JBool false)] eq_refl eq_refl)
    as (d' & rof' & E & R & _ & S & _).
  exists d', rof'. split; [exact E|]. split; [exact R|]. apply S. reflexivity.
Defined.
